(** * slam_recorder: the frame extractor of [extract_frames.py]

    A shallow embedding of [extract_frames(video_path, output_folder)]:
    the routine is written in a small monad of filesystem, console and
    decoder commands, and run against an explicit world (a path-indexed
    filesystem, the console, and the decoding backend as an oracle).
    Python floats are IEEE binary64 values of [SpecFloat]; the
    presentation timestamps are integers and the time base a rational. *)

From Stdlib Require Import ZArith QArith String Ascii List Sorted Lia Bool.
From Stdlib Require Import SpecFloat.
From stdpp Require Import gmap strings list.

Local Open Scope string_scope.
Local Open Scope Z_scope.

(** ** Text helpers *)

Module Text.

Definition slash : ascii := "/"%char.

Fixpoint contains (c : ascii) (s : string) : bool :=
  match s with
  | EmptyString => false
  | String a r => if Ascii.eqb a c then true else contains c r
  end.

Fixpoint forall_chars (p : ascii -> bool) (s : string) : bool :=
  match s with
  | EmptyString => true
  | String a r => p a && forall_chars p r
  end.

Fixpoint last_char (s : string) : option ascii :=
  match s with
  | EmptyString => None
  | String a EmptyString => Some a
  | String _ r => last_char r
  end.

(** [s.startswith(c)] and [s.endswith(c)] for a one-character [c] *)
Definition startswith (c : ascii) (s : string) : bool :=
  match s with
  | String a _ => Ascii.eqb a c
  | EmptyString => false
  end.

Definition endswith (c : ascii) (s : string) : bool :=
  match last_char s with
  | Some a => Ascii.eqb a c
  | None => false
  end.

(** [s.rstrip(chars)]: drop the trailing run of characters in [p] *)
Fixpoint rstrip_by (p : ascii -> bool) (s : string) : string :=
  match s with
  | EmptyString => EmptyString
  | String a r =>
      match rstrip_by p r with
      | EmptyString => if p a then EmptyString else String a EmptyString
      | r' => String a r'
      end
  end.

(** [s.lstrip(chars)] *)
Fixpoint lstrip_by (p : ascii -> bool) (s : string) : string :=
  match s with
  | EmptyString => EmptyString
  | String a r => if p a then lstrip_by p r else s
  end.

(** Python's [str.isspace] on the code points below 256 *)
Definition is_space (a : ascii) : bool :=
  let n := N_of_ascii a in
  ((9 <=? n) && (n <=? 13) || (28 <=? n) && (n <=? 32)
   || (n =? 133) || (n =? 160))%N%bool.

(** [s.strip()] *)
Definition strip (s : string) : string := rstrip_by is_space (lstrip_by is_space s).

Definition is_digit (a : ascii) : bool :=
  let n := N_of_ascii a in ((48 <=? n) && (n <=? 57))%N%bool.

(** ASCII lower-casing, as the case-insensitive matches of the float parser need *)
Definition lower (a : ascii) : ascii :=
  let n := N_of_ascii a in
  if ((65 <=? n) && (n <=? 90))%N%bool then ascii_of_N (n + 32) else a.

Fixpoint map_chars (f : ascii -> ascii) (s : string) : string :=
  match s with
  | EmptyString => EmptyString
  | String a r => String (f a) (map_chars f r)
  end.

Fixpoint filter_chars (p : ascii -> bool) (s : string) : string :=
  match s with
  | EmptyString => EmptyString
  | String a r => if p a then String a (filter_chars p r) else filter_chars p r
  end.

(** [c * n] *)
Fixpoint replicate_char (n : nat) (c : ascii) : string :=
  match n with
  | O => EmptyString
  | S k => String c (replicate_char k c)
  end.

(** [sep.join(fields)] *)
Fixpoint join (sep : string) (fields : list string) : string :=
  match fields with
  | [] => EmptyString
  | [f] => f
  | f :: rest => f ++ sep ++ join sep rest
  end.

End Text.

(** ** [os.path] on POSIX path strings *)

Module Path.
Import Text.

(** [posixpath.join(a, b)] *)
Definition join (a b : string) : string :=
  if startswith slash b then b
  else if (String.eqb a "" || endswith slash a)%bool then a ++ b
  else a ++ "/" ++ b.

(** [p[:p.rfind('/') + 1]] *)
Fixpoint head (p : string) : string :=
  match p with
  | EmptyString => EmptyString
  | String a r =>
      if contains slash r then String a (head r)
      else if Ascii.eqb a slash then String a EmptyString
      else EmptyString
  end.

(** [p[p.rfind('/') + 1:]] *)
Fixpoint tail (p : string) : string :=
  match p with
  | EmptyString => EmptyString
  | String a r =>
      if contains slash r then tail r
      else if Ascii.eqb a slash then r
      else p
  end.

(** [posixpath.dirname(p)] *)
Definition dirname (p : string) : string :=
  let h := head p in
  if (negb (String.eqb h "") && negb (forall_chars (fun a => Ascii.eqb a slash) h))%bool
  then rstrip_by (fun a => Ascii.eqb a slash) h
  else h.

End Path.

(** ** Decimal rendering of integers *)

Module Decimal.
Import Text.

Definition digit_char (d : N) : ascii := ascii_of_N (48 + d).

Fixpoint digits_go (fuel : nat) (n : N) (acc : string) : string :=
  match fuel with
  | O => acc
  | S k =>
      let acc' := String (digit_char (n mod 10)) acc in
      if (n / 10 =? 0)%N then acc' else digits_go k (n / 10) acc'
  end.

(** [str(n)] for a non-negative integer: a number has no more decimal
    than binary digits, which bounds the recursion *)
Definition str_N (n : N) : string :=
  digits_go (S (N.to_nat (N.log2 n))) n "".

(** [s.rjust(w, "0")] *)
Definition zfill (w : nat) (s : string) : string :=
  replicate_char (w - String.length s) "0"%char ++ s.

(** [f"{i:06d}"] for a non-negative [i] *)
Definition format_06d (i : nat) : string := zfill 6 (str_N (N.of_nat i)).

(** the value of a string of decimal digits, most significant first *)
Fixpoint value_go (acc : N) (s : string) : N :=
  match s with
  | EmptyString => acc
  | String a r => value_go (10 * acc + (N_of_ascii a - 48))%N r
  end.

Definition value (s : string) : N := value_go 0 s.

End Decimal.

(** ** Python floats: IEEE binary64 *)

Module Float.
Import Text.

Definition prec : Z := 53.
Definition emax : Z := 1024.

Abbreviation float := spec_float.

Definition is_finite (x : float) : bool :=
  match x with
  | S754_zero _ | S754_finite _ _ _ => true
  | S754_infinity _ | S754_nan => false
  end.

(** the quotient [n / d] of two positive integers, rounded to nearest,
    ties to even; beyond the largest float it is the infinity *)
Definition round_ratio (s : bool) (n d : positive) : float :=
  let '(q, e, l) := SFdiv_core_binary prec emax (Zpos n) 0 (Zpos d) 0 in
  binary_round_aux prec emax s q e l.

(** [n / d] on integers ([int.__truediv__]), [d] positive: correctly
    rounded; [None] is [OverflowError] *)
Definition true_divide (n : Z) (d : positive) : option float :=
  match n with
  | Z0 => Some (S754_zero false)
  | Zpos p =>
      match round_ratio false p d with
      | S754_infinity _ => None
      | x => Some x
      end
  | Zneg p =>
      match round_ratio true p d with
      | S754_infinity _ => None
      | x => Some x
      end
  end.

(** [int * Fraction]: exact, and kept in lowest terms *)
Definition fraction_mul (k : Z) (q : Q) : Q := Qred (inject_Z k * q).

(** [float(Fraction)], that is [numerator / denominator] *)
Definition of_fraction (q : Q) : option float := true_divide (Qnum q) (Qden q).

(** [x + y] *)
Definition add (x y : float) : float := SFadd prec emax x y.

(** the rational value of a finite float *)
Definition to_Q (x : float) : Q :=
  match x with
  | S754_finite s m (Zneg p) => (if s then Zneg m else Zpos m) # (2 ^ p)
  | S754_finite s m e => inject_Z ((if s then Zneg m else Zpos m) * 2 ^ e)
  | _ => 0%Q
  end.

(** [a / b] rounded to the nearest integer, ties to even (a >= 0) *)
Definition round_half_even (a : Z) (b : positive) : Z :=
  let q := a / Zpos b in
  match 2 * (a mod Zpos b) ?= Zpos b with
  | Lt => q
  | Gt => q + 1
  | Eq => if Z.even q then q else q + 1
  end.

(** the magnitude [m * 2^e] in millionths, rounded to nearest even *)
Definition micros (m : positive) (e : Z) : Z :=
  match e with
  | Zneg p => round_half_even (Zpos m * 1000000) (2 ^ p)
  | _ => Zpos m * 2 ^ e * 1000000
  end.

Definition sign_str (s : bool) : string := if s then "-" else "".

(** [k] millionths in fixed notation with six decimals *)
Definition fixed6 (k : Z) : string :=
  Decimal.str_N (Z.to_N (k / 1000000)) ++ "." ++
  Decimal.zfill 6 (Decimal.str_N (Z.to_N (k mod 1000000))).

(** [f"{x:.6f}"] *)
Definition format_6f (x : float) : string :=
  match x with
  | S754_nan => "nan"
  | S754_infinity s => sign_str s ++ "inf"
  | S754_zero s => sign_str s ++ fixed6 0
  | S754_finite s m e => sign_str s ++ fixed6 (micros m e)
  end.

(** *** [float(str)] *)

(** the underscore rule of numeric literals: an underscore stands only
    between two digits; [prev] is the character before [s] *)
Fixpoint underscores_ok (prev : option ascii) (s : string) : bool :=
  match s with
  | EmptyString =>
      match prev with
      | Some a => negb (Ascii.eqb a "_")
      | None => true
      end
  | String a r =>
      let ok :=
        if Ascii.eqb a "_" then
          match prev with Some b => is_digit b | None => false end
        else
          match prev with
          | Some b => negb (Ascii.eqb b "_") || is_digit a
          | None => true
          end in
      ok && underscores_ok (Some a) r
  end.

(** the longest prefix of digits, and the rest *)
Fixpoint span_digits (s : string) : string * string :=
  match s with
  | EmptyString => (EmptyString, EmptyString)
  | String a r =>
      if is_digit a then let '(d, t) := span_digits r in (String a d, t)
      else (EmptyString, s)
  end.

(** an optional sign: [true] for minus *)
Definition take_sign (s : string) : bool * string :=
  match s with
  | String "-" r => (true, r)
  | String "+" r => (false, r)
  | _ => (false, s)
  end.

(** an exponent part [e[+-]digits]; when it is malformed nothing is consumed *)
Definition take_exponent (s : string) : Z * string :=
  match s with
  | String c r =>
      if (Ascii.eqb c "e" || Ascii.eqb c "E")%bool then
        let '(neg, r1) := take_sign r in
        let '(d, t) := span_digits r1 in
        match d with
        | EmptyString => (0, s)
        | _ => ((if neg then - Z.of_N (Decimal.value d) else Z.of_N (Decimal.value d)), t)
        end
      else (0, s)
  | EmptyString => (0, s)
  end.

(** the decimal [digits * 10^k], correctly rounded *)
Definition of_decimal (s : bool) (digits : N) (k : Z) : float :=
  match digits with
  | N0 => S754_zero s
  | Npos p =>
      match k with
      | Zneg e => round_ratio s p (10 ^ e)
      | Z0 => round_ratio s p 1
      | Zpos e => round_ratio s (p * 10 ^ e) 1
      end
  end.

(** a decimal literal: digits, an optional point and more digits (one
    digit at least), an optional exponent, and nothing after *)
Definition parse_number (s : string) : option float :=
  let '(neg, s0) := take_sign s in
  let '(ip, s1) := span_digits s0 in
  let '(fp, s2) :=
    match s1 with
    | String "." r => span_digits r
    | _ => (EmptyString, s1)
    end in
  if (String.length ip + String.length fp =? 0)%nat then None
  else
    let '(ex, s3) := take_exponent s2 in
    match s3 with
    | EmptyString =>
        Some (of_decimal neg (Decimal.value (ip ++ fp)) (ex - Z.of_nat (String.length fp)))
    | _ => None
    end.

(** [inf], [infinity] and [nan] in any case, with an optional sign *)
Definition parse_inf_nan (s : string) : option float :=
  let '(neg, r) := take_sign s in
  let w := map_chars lower r in
  if (String.eqb w "inf" || String.eqb w "infinity")%bool then Some (S754_infinity neg)
  else if String.eqb w "nan" then Some S754_nan
  else None.

(** [float(s)] for a string: [None] is [ValueError] *)
Definition of_string (s : string) : option float :=
  let t := strip s in
  if underscores_ok None t then
    let u := filter_chars (fun a => negb (Ascii.eqb a "_")) t in
    match parse_number u with
    | Some x => Some x
    | None => parse_inf_nan u
    end
  else None.

End Float.

(** ** The world the routine runs in *)

(** the content of a decoded picture, as the image writer receives it *)
Definition picture := N.

Record frame := Frame { pts : option Z; to_image : picture }.

(** a video stream: its time base (seconds per tick) and the frames
    [container.decode(stream)] yields, in decode order *)
Record stream := Stream { time_base : Q; frames : list frame }.

(** an opened container: [container.streams.video] *)
Record container := Container { video : list stream }.

Inductive exn_kind :=
| ValueError
| UnicodeDecodeError
| OverflowError
| FileNotFoundError
| IsADirectoryError
| PermissionError
| AvError.

Record exn := Exn { kind : exn_kind; message : string }.

(** [isinstance(e, ValueError)]: a decoding error is a [ValueError] too *)
Definition is_ValueError (e : exn) : bool :=
  match kind e with
  | ValueError | UnicodeDecodeError => true
  | _ => false
  end.

(** what a file holds: text the platform encoding decodes, bytes it
    rejects, or an image *)
Inductive content :=
| Text (s : string)
| Undecodable (bytes : list N)
| Jpeg (pic : picture).

Inductive node :=
| Dir
| File (c : content).

(** The filesystem maps path strings to nodes; [unreadable] are the files
    the process may not read; [av_open] is the decoding backend: what
    [av.open] does on a path; [stdout] is the console, one entry per
    [print]. *)
Record world := World {
  fs : gmap string node;
  unreadable : gset string;
  av_open : string -> exn + container;
  stdout : list string
}.

Definition set_fs (f : gmap string node -> gmap string node) (w : world) : world :=
  {| fs := f (fs w); unreadable := unreadable w; av_open := av_open w; stdout := stdout w |}.

Definition put_stdout (s : string) (w : world) : world :=
  {| fs := fs w; unreadable := unreadable w; av_open := av_open w; stdout := stdout w ++ [s] |}.

(** ** Commands and programs *)

Inductive cmd :=
| PathExists (p : string)             (* os.path.exists(p) *)
| MakeDirs (p : string)               (* os.makedirs(p) *)
| AvOpen (p : string)                 (* av.open(p) *)
| ReadText (p : string)               (* with open(p, 'r') as f: f.read() *)
| OpenWrite (p : string)              (* open(p, mode='w', newline='') *)
| FileWrite (p : string) (s : string) (* write s to the file opened at p *)
| SaveImage (p : string) (pic : picture) (* image.save(p) *)
| Stdout (s : string).                (* print(s) *)

Definition resp (c : cmd) : Type :=
  match c with
  | PathExists _ => bool
  | AvOpen _ => container
  | ReadText _ => string
  | _ => unit
  end.

(** text mode with [newline=None]: every line end is read as a line feed *)
Fixpoint universal_newlines (s : string) : string :=
  match s with
  | EmptyString => EmptyString
  | String "013" (String "010" r) => String "010" (universal_newlines r)
  | String "013" r => String "010" (universal_newlines r)
  | String a r => String a (universal_newlines r)
  end.

(** The effect of one command.  Writing commands are run on a filesystem
    that accepts them; reading and opening a container can fail. *)
Definition exec (c : cmd) (w : world) : (exn + resp c) * world :=
  match c return (exn + resp c) * world with
  | PathExists p => (inr (bool_decide (is_Some (fs w !! p))), w)
  | MakeDirs p => (inr tt, set_fs <[p := Dir]> w)
  | AvOpen p => (av_open w p, w)
  | ReadText p =>
      (match fs w !! p with
       | None => inl (Exn FileNotFoundError p)
       | Some Dir => inl (Exn IsADirectoryError p)
       | Some (File c) =>
           if bool_decide (p ∈ unreadable w) then inl (Exn PermissionError p)
           else match c with
                | Text s => inr (universal_newlines s)
                | Undecodable _ | Jpeg _ => inl (Exn UnicodeDecodeError p)
                end
       end, w)
  | OpenWrite p => (inr tt, set_fs <[p := File (Text "")]> w)
  | FileWrite p s =>
      (inr tt,
       set_fs (fun m => match m !! p with
                        | Some (File (Text t)) => <[p := File (Text (t ++ s))]> m
                        | _ => <[p := File (Text s)]> m
                        end) w)
  | SaveImage p pic => (inr tt, set_fs <[p := File (Jpeg pic)]> w)
  | Stdout s => (inr tt, put_stdout s w)
  end.

Inductive prog (A : Type) : Type :=
| Ret (a : A)
| Raise (e : exn)
| Do (c : cmd) (k : exn + resp c -> prog A).

Arguments Ret {A} a.
Arguments Raise {A} e.
Arguments Do {A} c k.

Fixpoint bind {A B : Type} (p : prog A) (f : A -> prog B) : prog B :=
  match p with
  | Ret a => f a
  | Raise e => Raise e
  | Do c k => Do c (fun r => bind (k r) f)
  end.

(** [try: p  except <handled>: ...]: [handler e] is [None] when the
    [except] clause does not match [e] *)
Fixpoint try_except {A : Type} (p : prog A) (handler : exn -> option (prog A)) : prog A :=
  match p with
  | Ret a => Ret a
  | Raise e => match handler e with Some q => q | None => Raise e end
  | Do c k => Do c (fun r => try_except (k r) handler)
  end.

(** issue a command; its failure is raised *)
Definition call (c : cmd) : prog (resp c) :=
  Do c (fun r => match r with inl e => Raise e | inr x => Ret x end).

Declare Scope prog_scope.
Delimit Scope prog_scope with prog.
Notation "x <- c1 ;; c2" := (bind c1 (fun x => c2))
  (at level 100, c1 at next level, c2 at level 200, right associativity) : prog_scope.
Notation "c1 ;; c2" := (bind c1 (fun _ => c2))
  (at level 100, c2 at level 200, right associativity) : prog_scope.

(** run a program to its end: the value returned or the exception that
    escapes, and the world left behind *)
Fixpoint run {A : Type} (p : prog A) (w : world) : (exn + A) * world :=
  match p with
  | Ret a => (inr a, w)
  | Raise e => (inl e, w)
  | Do c k => let '(r, w') := exec c w in run (k r) w'
  end.

(** the commands a run issues, in order *)
Fixpoint trace {A : Type} (p : prog A) (w : world) : list cmd :=
  match p with
  | Ret _ | Raise _ => []
  | Do c k => let '(r, w') := exec c w in c :: trace (k r) w'
  end.

(** a run stopped from outside after [n] commands: the commands issued
    and the world left behind *)
Fixpoint run_for {A : Type} (n : nat) (p : prog A) (w : world) : list cmd * world :=
  match n, p with
  | S m, Do c k =>
      let '(r, w') := exec c w in
      let '(cs, w'') := run_for m (k r) w' in (c :: cs, w'')
  | _, _ => ([], w)
  end.

(** the effect of a list of commands on a world *)
Definition replay (cs : list cmd) (w : world) : world :=
  fold_left (fun w c => snd (exec c w)) cs w.

(** ** [csv.writer] with the default dialect *)

Module Csv.
Import Text.

Definition quotechar : ascii := ascii_of_N 34.
Definition cr : ascii := "013"%char.
Definition lf : ascii := "010"%char.
Definition lineterminator : string := String cr (String lf EmptyString).

(** minimal quoting: a field is quoted when it holds the delimiter, the
    quote character or a character of the line terminator *)
Definition needs_quote (f : string) : bool :=
  (contains "," f || contains quotechar f || contains cr f || contains lf f)%bool.

Fixpoint double_quotes (f : string) : string :=
  match f with
  | EmptyString => EmptyString
  | String a r =>
      if Ascii.eqb a quotechar then String a (String a (double_quotes r))
      else String a (double_quotes r)
  end.

(** a character that never calls for quoting *)
Definition plain (a : ascii) : bool :=
  negb (Ascii.eqb a "," || Ascii.eqb a quotechar || Ascii.eqb a cr || Ascii.eqb a lf).

(** a character that does not end a line *)
Definition inline (a : ascii) : bool := negb (Ascii.eqb a cr || Ascii.eqb a lf).

Definition field (f : string) : string :=
  if needs_quote f then String quotechar (double_quotes f ++ String quotechar EmptyString)
  else f.

(** the text [writer.writerow(fields)] writes *)
Definition line (fields : list string) : string :=
  match fields with
  | [EmptyString] => String quotechar (String quotechar lineterminator)
  | _ => join "," (map field fields) ++ lineterminator
  end.

End Csv.

(** ** The routine *)

Section Extractor.

(** [str(x)] of a float, as an f-string renders it on the console; its
    digits are Python's shortest round-trip representation, which no
    property below depends on *)
Variable float_repr : Float.float -> string.

Local Open Scope prog_scope.

Definition print (s : string) : prog unit := call (Stdout s).

Definition path_exists (p : string) : prog bool := call (PathExists p).

Definition makedirs (p : string) : prog unit := call (MakeDirs p).

Definition open_container (p : string) : prog container := call (AvOpen p).

Definition read_text (p : string) : prog string := call (ReadText p).

Definition open_write (p : string) : prog unit := call (OpenWrite p).

Definition save_image (p : string) (pic : picture) : prog unit := call (SaveImage p pic).

Definition writerow (csv_path : string) (row : list string) : prog unit :=
  call (FileWrite csv_path (Csv.line row)).

(** [float(content)] *)
Definition float_of_string (s : string) : prog Float.float :=
  match Float.of_string s with
  | Some x => Ret x
  | None => Raise (Exn ValueError "could not convert string to float")
  end.

(** [float(q)] for a [Fraction] *)
Definition float_of_fraction (q : Q) : prog Float.float :=
  match Float.of_fraction q with
  | Some x => Ret x
  | None => Raise (Exn OverflowError "integer division result too large for a float")
  end.

(** [f"frame_{i:06d}.jpg"] *)
Definition frame_filename (i : nat) : string :=
  "frame_" ++ Decimal.format_06d i ++ ".jpg".

(** lines 43-56: the start time offset *)
Definition load_start_offset (video_path : string) : prog Float.float :=
  let video_dir := Path.dirname video_path in
  let start_time_path := Path.join video_dir "video_start_time.txt" in
  present <- path_exists start_time_path ;;
  if present : bool then
    try_except
      (content <- read_text start_time_path ;;
       start_offset <- float_of_string (Text.strip content) ;;
       print ("Found start time offset: " ++ float_repr start_offset) ;;
       Ret start_offset)
      (fun e =>
         if is_ValueError e
         then Some (print "Warning: Could not parse video_start_time.txt" ;;
                    Ret (S754_zero false))
         else None)
  else
    print "Warning: video_start_time.txt not found. Timestamps will be relative to 0." ;;
    Ret (S754_zero false).

(** lines 67-88: [for i, frame in enumerate(container.decode(stream))] *)
Fixpoint decode_loop (output_folder csv_path : string) (tb : Q)
    (start_offset : Float.float) (i : nat) (fr : list frame) : prog unit :=
  match fr with
  | [] => Ret tt
  | frame :: rest =>
      match pts frame with
      | None => decode_loop output_folder csv_path tb start_offset (S i) rest
      | Some p =>
          x <- float_of_fraction (Float.fraction_mul p tb) ;;
          let timestamp_seconds := Float.add x start_offset in
          let filename := frame_filename i in
          let file_path := Path.join output_folder filename in
          save_image file_path (to_image frame) ;;
          writerow csv_path [filename; Float.format_6f timestamp_seconds] ;;
          (if (i mod 50 =? 0)%nat
           then print ("Saved " ++ filename ++ " at t=" ++ Float.format_6f timestamp_seconds)
           else Ret tt) ;;
          decode_loop output_folder csv_path tb start_offset (S i) rest
      end
  end.

Definition extract_frames (video_path output_folder : string) : prog unit :=
  present <- path_exists output_folder ;;
  (if negb present then makedirs output_folder else Ret tt) ;;
  opened <- try_except
              (container <- open_container video_path ;; Ret (Some container))
              (fun e => Some (print ("Error opening video file: " ++ message e) ;;
                              Ret None)) ;;
  match opened with
  | None => Ret tt
  | Some container =>
      match video container with
      | [] => print "No video stream found in file."
      | stream :: _ =>
          start_offset <- load_start_offset video_path ;;
          let csv_path := Path.join output_folder "frame_timestamps.csv" in
          print ("Processing: " ++ video_path) ;;
          open_write csv_path ;;
          writerow csv_path ["filename"; "timestamp"] ;;
          decode_loop output_folder csv_path (time_base stream) start_offset 0
            (frames stream) ;;
          print ("Done! Frames and CSV saved to " ++ output_folder)
      end
  end.

End Extractor.

(** ** What a run leaves behind, read off the code *)

Definition sidecar_path (video_path : string) : string :=
  Path.join (Path.dirname video_path) "video_start_time.txt".

Definition csv_path (output_folder : string) : string :=
  Path.join output_folder "frame_timestamps.csv".

Definition frame_path (output_folder : string) (i : nat) : string :=
  Path.join output_folder (frame_filename i).

(** lines 26-27: the world once the output directory is there *)
Definition ensure_dir (output_folder : string) (w : world) : world :=
  if bool_decide (is_Some (fs w !! output_folder)) then w
  else set_fs <[output_folder := Dir]> w.

(** the outcome of lines 43-56 in a world: the offset, or the exception
    that escapes *)
Definition start_offset (w : world) (video_path : string) : exn + Float.float :=
  match fs w !! sidecar_path video_path with
  | None => inr (S754_zero false)
  | Some _ =>
      match fst (exec (ReadText (sidecar_path video_path)) w) with
      | inl e => if is_ValueError e then inr (S754_zero false) else inl e
      | inr content =>
          match Float.of_string (Text.strip content) with
          | Some x => inr x
          | None => inr (S754_zero false)
          end
      end
  end.

(** what lines 43-56 print *)
Definition start_offset_notice (float_repr : Float.float -> string)
    (w : world) (video_path : string) : list string :=
  match fs w !! sidecar_path video_path with
  | None => ["Warning: video_start_time.txt not found. Timestamps will be relative to 0."]
  | Some _ =>
      match fst (exec (ReadText (sidecar_path video_path)) w) with
      | inl e => if is_ValueError e
                 then ["Warning: Could not parse video_start_time.txt"] else []
      | inr content =>
          match Float.of_string (Text.strip content) with
          | Some x => ["Found start time offset: " ++ float_repr x]
          | None => ["Warning: Could not parse video_start_time.txt"]
          end
      end
  end.

(** line 75: [float(frame.pts * stream.time_base) + start_offset] *)
Definition timestamp_seconds (tb : Q) (off : Float.float) (p : Z) : option Float.float :=
  match Float.of_fraction (Float.fraction_mul p tb) with
  | Some x => Some (Float.add x off)
  | None => None
  end.

(** a frame the loop writes: its decode-order index, timestamp and picture *)
Record shot := Shot { index : nat; stamp : Float.float; shot_picture : picture }.

(** the frames the loop writes, starting at index [i], up to the end of
    the stream or the first conversion that overflows *)
Fixpoint written (tb : Q) (off : Float.float) (i : nat) (fr : list frame) : list shot :=
  match fr with
  | [] => []
  | f :: rest =>
      match pts f with
      | None => written tb off (S i) rest
      | Some p =>
          match timestamp_seconds tb off p with
          | Some t => Shot i t (to_image f) :: written tb off (S i) rest
          | None => []
          end
      end
  end.

(** does some conversion overflow? *)
Fixpoint overflows (tb : Q) (fr : list frame) : bool :=
  match fr with
  | [] => false
  | f :: rest =>
      match pts f with
      | None => overflows tb rest
      | Some p =>
          match Float.of_fraction (Float.fraction_mul p tb) with
          | Some _ => overflows tb rest
          | None => true
          end
      end
  end.

Definition csv_row (s : shot) : string :=
  Csv.line [frame_filename (index s); Float.format_6f (stamp s)].

Definition csv_header : string := Csv.line ["filename"; "timestamp"].

(** the commands one written frame costs *)
Definition shot_cmds (output_folder : string) (s : shot) : list cmd :=
  [SaveImage (frame_path output_folder (index s)) (shot_picture s);
   FileWrite (csv_path output_folder) (csv_row s)] ++
  (if (index s mod 50 =? 0)%nat
   then [Stdout ("Saved " ++ frame_filename (index s) ++ " at t=" ++ Float.format_6f (stamp s))]
   else []).

Definition loop_cmds (output_folder : string) (ss : list shot) : list cmd :=
  concat (map (shot_cmds output_folder) ss).

(** the images a list of commands saves, the text it appends to a file and
    the lines it prints *)
Definition saved (cs : list cmd) : list (string * picture) :=
  omap (fun c => match c with SaveImage p pic => Some (p, pic) | _ => None end) cs.

Definition appended (path : string) (cs : list cmd) : list string :=
  omap (fun c => match c with
                 | FileWrite p s => if String.eqb p path then Some s else None
                 | _ => None
                 end) cs.

Definition printed (cs : list cmd) : list string :=
  omap (fun c => match c with Stdout s => Some s | _ => None end) cs.

(** the filesystem with the images of [ss] saved *)
Definition save_all (output_folder : string) (ss : list shot)
    (m : gmap string node) : gmap string node :=
  fold_left (fun m s => <[frame_path output_folder (index s) := File (Jpeg (shot_picture s))]> m)
    ss m.

(** the text of the CSV file after the rows of [ss] *)
Definition csv_text (ss : list shot) : string :=
  csv_header ++ fold_right String.append "" (map csv_row ss).

(** does a command write to the filesystem? *)
Definition touches_fs (c : cmd) : bool :=
  match c with
  | MakeDirs _ | OpenWrite _ | FileWrite _ _ | SaveImage _ _ => true
  | _ => false
  end.

(** the lines of a text, each of [CR LF], [LF] and [CR] ending one, as
    [readlines()] of a file opened in text mode finds them; [after_cr]
    tells that the character before was a [CR] *)
Fixpoint splitlines_go (after_cr : bool) (cur : string) (s : string) : list string :=
  match s with
  | EmptyString => match cur with EmptyString => [] | _ => [cur] end
  | String a r =>
      if Ascii.eqb a Csv.lf then
        if after_cr then splitlines_go false EmptyString r
        else cur :: splitlines_go false EmptyString r
      else if Ascii.eqb a Csv.cr then cur :: splitlines_go true EmptyString r
      else splitlines_go false (cur ++ String a EmptyString) r
  end.

Definition splitlines (s : string) : list string := splitlines_go false EmptyString s.



Definition overflow_error : exn :=
  Exn OverflowError "integer division result too large for a float".

(** the commands of lines 26-27 *)
Definition dir_cmds (out : string) (w : world) : list cmd :=
  PathExists out :: (if bool_decide (is_Some (fs w !! out)) then [] else [MakeDirs out]).

(** the commands of lines 43-56 *)
Definition offset_cmds (float_repr : Float.float -> string) (w : world) (v : string) : list cmd :=
  (PathExists (sidecar_path v)
   :: match fs w !! sidecar_path v with
      | None => []
      | Some _ => [ReadText (sidecar_path v)]
      end ++ map Stdout (start_offset_notice float_repr w v))%list.

Definition done_notice (out : string) : string := "Done! Frames and CSV saved to " ++ out.

(** the commands of lines 58-90, once the offset is known *)
Definition body_cmds (v out : string) (s : stream) (off : Float.float) : list cmd :=
  ([Stdout ("Processing: " ++ v); OpenWrite (csv_path out);
    FileWrite (csv_path out) csv_header] ++
   loop_cmds out (written (time_base s) off 0 (frames s)) ++
   (if overflows (time_base s) (frames s) then [] else [Stdout (done_notice out)]))%list.

(** all the commands of a run, by the case the run falls in *)
Definition main_cmds (float_repr : Float.float -> string) (w : world) (v out : string)
    : list cmd :=
  (dir_cmds out w ++
   AvOpen v ::
   match av_open w v with
   | inl e => [Stdout ("Error opening video file: " ++ message e)]
   | inr c =>
       match video c with
       | [] => [Stdout "No video stream found in file."]
       | s :: _ =>
           offset_cmds float_repr (ensure_dir out w) v ++
           match start_offset (ensure_dir out w) v with
           | inl _ => []
           | inr off => body_cmds v out s off
           end
       end
   end)%list.

(** how a run ends: normally, or with the exception that escapes *)
Definition main_result (w : world) (v out : string) : exn + unit :=
  match av_open w v with
  | inl _ => inr tt
  | inr c =>
      match video c with
      | [] => inr tt
      | s :: _ =>
          match start_offset (ensure_dir out w) v with
          | inl e => inl e
          | inr _ => if overflows (time_base s) (frames s) then inl overflow_error else inr tt
          end
      end
  end.


(** ** Sample inputs *)

(** a three-frame stream at 30 ticks per second *)
Definition sample_video : container :=
  Container [Stream (1 # 30) [Frame (Some 0) 10%N; Frame (Some 1) 11%N; Frame (Some 2) 12%N]].

(** a container without a video stream *)
Definition audio_only : container := Container [].

(** a backend that opens [d/v.mov] as [c] and nothing else *)
Definition sample_backend (c : container) (p : string) : exn + container :=
  if String.eqb p "d/v.mov" then inr c
  else inl (Exn AvError "No such file or directory").

(** a world with the given files, where [d/v.mov] decodes to [c] *)
Definition sample_world (files : gmap string node) (c : container) : world :=
  World files ∅ (sample_backend c) [].

Definition sidecar_file (s : string) : gmap string node :=
  {[ "d/video_start_time.txt" := File (Text s) ]}.

(** ** The frames a run is to write *)



Definition is_save (c : cmd) : bool :=
  match c with
  | SaveImage _ _ => true
  | _ => false
  end.

(** a frame is in flight when the last command issued saved its image:
    its row is still to be appended *)
Definition in_flight (cs : list cmd) : bool :=
  match last cs with
  | Some c => is_save c
  | None => false
  end.


(** the float [1000.0] *)
Definition f1000 : Float.float := S754_finite false 8796093022208000 (-43).

Definition sample_stream : stream :=
  Stream (1 # 30) [Frame (Some 0) 10%N; Frame (Some 1) 11%N; Frame (Some 2) 12%N].

(** a stream whose second frame has no timestamp *)
Definition gappy_stream : stream :=
  Stream (1 # 30) [Frame (Some 0) 10%N; Frame None 11%N; Frame (Some 2) 12%N].


(** ** Comparing a float with a rational *)

(** the exponent of the format for a number of a given magnitude *)
Abbreviation fexp := (SpecFloat.fexp Float.prec Float.emax).

(** [t >= q]: a float that is no number is at least nothing *)
Definition at_least (q : Q) (t : Float.float) : Prop :=
  match t with
  | S754_nan => False
  | S754_infinity s => s = false
  | S754_zero _ => (q <= 0)%Q
  | S754_finite s m e => s = false /\ (q <= Float.to_Q t)%Q
  end.

(** the integers a video backend hands over: a presentation timestamp is
    a signed 64-bit integer, the time base a ratio of signed 32-bit ones *)
Definition int64 (p : Z) : Prop := - 2 ^ 63 <= p < 2 ^ 63.

Definition int32_ratio (q : Q) : Prop :=
  - 2 ^ 31 <= Qnum q <= 2 ^ 31 /\ Zpos (Qden q) <= 2 ^ 31.

(** a float that is zero or positive, with an exponent of the format *)
Definition nonneg_float (x : Float.float) : Prop :=
  x = S754_zero false \/ exists m e, x = S754_finite false m e /\ -1074 <= e.

(** a float that is 1000 or more, stated on integers: its value in units
    of [2^-1074] *)
Definition above_1000 (t : Float.float) : Prop :=
  t = S754_infinity false \/
  exists m e, t = S754_finite false m e /\ -1074 <= e /\
              1000 * 2 ^ 1074 <= Zpos m * 2 ^ (e + 1074).

(** ** Commands that leave a file alone *)




(** ** More of the routine's surroundings *)



(** [s.split(c)] for a one-character separator *)
Fixpoint split_go (c : ascii) (cur : string) (s : string) : list string :=
  match s with
  | EmptyString => [cur]
  | String a r =>
      if Ascii.eqb a c then cur :: split_go c EmptyString r
      else split_go c (cur ++ String a EmptyString) r
  end.

Definition split_on (c : ascii) (s : string) : list string := split_go c EmptyString s.


(** ** Reading the timestamps back *)

(** what [float] reads in the text [f"{x:.6f}"]: the float nearest to the
    count of millionths that was written *)
Definition reread (x : Float.float) : Float.float :=
  match x with
  | S754_finite s m e => Float.of_decimal s (Z.to_N (Float.micros m e)) (-6)
  | _ => x
  end.

(** the characters of a number in fixed notation *)
Definition numeric (a : ascii) : bool :=
  (Text.is_digit a || Ascii.eqb a "." || Ascii.eqb a "-")%bool.

(** [x >= y] and [x < y] on floats: the values are compared, and no
    comparison holds of a [nan] *)
Definition float_ge (x y : Float.float) : bool :=
  match x, y with
  | S754_nan, _ | _, S754_nan => false
  | S754_infinity sx, S754_infinity sy => implb sx sy
  | S754_infinity sx, _ => negb sx
  | _, S754_infinity sy => sy
  | _, _ => Qle_bool (Float.to_Q y) (Float.to_Q x)
  end.

Definition float_lt (x y : Float.float) : bool :=
  match x, y with
  | S754_nan, _ | _, S754_nan => false
  | S754_infinity sx, S754_infinity sy => sx && negb sy
  | S754_infinity sx, _ => sx
  | _, S754_infinity sy => negb sy
  | _, _ => negb (Qle_bool (Float.to_Q y) (Float.to_Q x))
  end.

(** the float [100.0] *)
Definition f100 : Float.float := S754_finite false 7036874417766400 (-46).

(** a float that is zero or positive and at most [2^B], stated on
    integers like [above_1000] *)
Definition at_most_pow2 (B : Z) (x : Float.float) : Prop :=
  x = S754_zero false \/
  exists m e, x = S754_finite false m e /\ -1074 <= e /\
              Zpos m * 2 ^ (e + 1074) <= 2 ^ (B + 1074).

(** ** The tests of [tests/test_extract_frames.py] *)

(** [f.readlines()] on a text read in text mode: the lines, each with the
    line feed that ends it *)
Fixpoint readlines_go (cur : string) (s : string) : list string :=
  match s with
  | EmptyString => match cur with EmptyString => [] | _ => [cur] end
  | String a r =>
      if Ascii.eqb a Csv.lf then (cur ++ String a EmptyString) :: readlines_go EmptyString r
      else readlines_go (cur ++ String a EmptyString) r
  end.

Definition readlines (s : string) : list string := readlines_go EmptyString s.

(** [line.strip().split(',')] *)
Definition row_fields (line : string) : list string := split_on "," (Text.strip line).

Section Tests.
Variable float_repr : Float.float -> string.

Local Open Scope prog_scope.

(** [assert b] before the rest of a test: a test that fails ends with
    [false], be it on an assertion or on an index out of range *)
Definition assert_that (b : bool) (rest : prog bool) : prog bool :=
  if b then rest else Ret false.

(** tests, lines 62-64: [for i in range(5): assert os.path.exists(...)] *)
Fixpoint assert_frames (output_folder : string) (indices : list nat) (rest : prog bool)
    : prog bool :=
  match indices with
  | [] => rest
  | i :: more =>
      present <- path_exists (Path.join output_folder (frame_filename i)) ;;
      assert_that present (assert_frames output_folder more rest)
  end.

(** tests, lines 41-77, after [create_dummy_video]: the video is what the
    backend of the world decodes at [video_path] *)
Definition test_extract_frames (temp_dir : string) : prog bool :=
  let video_path := Path.join temp_dir "test_video.mov" in
  let output_folder := Path.join temp_dir "output" in
  let start_time_path := Path.join temp_dir "video_start_time.txt" in
  let start_offset := f1000 in
  open_write start_time_path ;;
  call (FileWrite start_time_path (float_repr start_offset)) ;;
  extract_frames float_repr video_path output_folder ;;
  present <- path_exists output_folder ;;
  assert_that present (
  present <- path_exists (Path.join output_folder "frame_timestamps.csv") ;;
  assert_that present (
  assert_frames output_folder (seq 0 5) (
  text <- read_text (Path.join output_folder "frame_timestamps.csv") ;;
  let lines := readlines text in
  assert_that (length lines =? 6)%nat (
  match lines with
  | line0 :: line1 :: _ =>
      let header := row_fields line0 in
      assert_that (bool_decide (header = ["filename"; "timestamp"])) (
      match row_fields line1 with
      | name :: stamp :: _ =>
          assert_that (String.eqb name "frame_000000.jpg") (
          t <- float_of_string stamp ;;
          assert_that (float_ge t start_offset) (Ret true))
      | _ => Ret false
      end)
  | _ => Ret false
  end)))).

(** tests, lines 79-99, after [create_dummy_video] *)
Definition test_extract_frames_no_start_time (temp_dir : string) : prog bool :=
  let video_path := Path.join temp_dir "test_video_no_start.mov" in
  let output_folder := Path.join temp_dir "output_no_start" in
  extract_frames float_repr video_path output_folder ;;
  present <- path_exists output_folder ;;
  assert_that present (
  text <- read_text (Path.join output_folder "frame_timestamps.csv") ;;
  let lines := readlines text in
  assert_that (length lines =? 4)%nat (
  match lines with
  | _ :: line1 :: _ =>
      match row_fields line1 with
      | _ :: stamp :: _ =>
          t <- float_of_string stamp ;;
          assert_that (float_ge t (S754_zero false)) (
          t' <- float_of_string stamp ;;
          assert_that (float_lt t' f100) (Ret true))
      | _ => Ret false
      end
  | _ => Ret false
  end)).

End Tests.

(** ** Samples for the tests *)

(** a video as a backend decodes what [create_dummy_video] wrote: [n]
    frames at 30 frames per second *)
Definition dummy_stream (n : nat) : stream :=
  Stream (1 # 30) (map (fun i => Frame (Some (Z.of_nat i)) (N.of_nat i)) (seq 0 n)).

Definition test_backend (p : string) : exn + container :=
  if String.eqb p "/tmp/t/test_video.mov" then inr (Container [dummy_stream 5])
  else if String.eqb p "/tmp/t/test_video_no_start.mov" then inr (Container [dummy_stream 3])
  else inl (Exn AvError "No such file or directory").

(** the fresh directory [/tmp/t] of a test *)
Definition test_world : world := World ∅ ∅ test_backend [].

(** a stand-in for [repr] on floats, right on [1000.0] *)
Definition sample_repr (x : Float.float) : string :=
  match x with
  | S754_finite false 8796093022208000 (-43) => "1000.0"
  | _ => Float.format_6f x
  end.

(** ** Running programs *)

Section Running.
Context {A B : Type}.

Lemma run_bind (p : prog A) (f : A -> prog B) (w : world) :
  run (bind p f) w =
  match run p w with
  | (inr a, w') => run (f a) w'
  | (inl e, w') => (inl e, w')
  end.
Proof.
  revert w. induction p as [a | e | c k IH]; intros w; simpl; try reflexivity.
  destruct (exec c w) as [r w']. apply IH.
Qed.

Lemma trace_bind (p : prog A) (f : A -> prog B) (w : world) :
  trace (bind p f) w =
  (trace p w ++
   match run p w with
   | (inr a, w') => trace (f a) w'
   | (inl _, _) => []
   end)%list.
Proof.
  revert w. induction p as [a | e | c k IH]; intros w; simpl; try reflexivity.
  destruct (exec c w) as [r w']. simpl. f_equal. apply IH.
Qed.

Lemma replay_app (cs1 cs2 : list cmd) (w : world) :
  replay (cs1 ++ cs2)%list w = replay cs2 (replay cs1 w).
Proof. unfold replay. apply fold_left_app. Qed.

Lemma run_replay (p : prog A) (w : world) :
  snd (run p w) = replay (trace p w) w.
Proof.
  revert w. induction p as [a | e | c k IH]; intros w; simpl; try reflexivity.
  destruct (exec c w) as [r w'] eqn:E. rewrite IH. unfold replay. simpl.
  now rewrite E.
Qed.


End Running.

Lemma run_path_exists (p : string) (w : world) :
  run (path_exists p) w = (inr (bool_decide (is_Some (fs w !! p))), w).
Proof. reflexivity. Qed.

Lemma trace_path_exists (p : string) (w : world) : trace (path_exists p) w = [PathExists p].
Proof. reflexivity. Qed.

Lemma run_makedirs (p : string) (w : world) :
  run (makedirs p) w = (inr tt, set_fs <[p := Dir]> w).
Proof. reflexivity. Qed.

Lemma trace_makedirs (p : string) (w : world) : trace (makedirs p) w = [MakeDirs p].
Proof. reflexivity. Qed.

Lemma run_open_container (p : string) (w : world) :
  run (open_container p) w = (av_open w p, w).
Proof. unfold open_container, call. simpl. destruct (av_open w p); reflexivity. Qed.

Lemma trace_open_container (p : string) (w : world) :
  trace (open_container p) w = [AvOpen p].
Proof. unfold open_container, call. simpl. destruct (av_open w p); reflexivity. Qed.

Lemma exec_read_text_world (p : string) (w : world) : snd (exec (ReadText p) w) = w.
Proof. reflexivity. Qed.

Lemma run_read_text (p : string) (w : world) :
  run (read_text p) w = (fst (exec (ReadText p) w), w).
Proof.
  unfold read_text, call. cbn [run]. destruct (exec (ReadText p) w) as [[e | x] w'] eqn:E;
    pose proof (exec_read_text_world p w) as H; rewrite E in H; simpl in H; subst w';
    reflexivity.
Qed.

Lemma trace_read_text (p : string) (w : world) : trace (read_text p) w = [ReadText p].
Proof.
  unfold read_text, call. cbn [trace]. destruct (exec (ReadText p) w) as [[e | x] w'];
    reflexivity.
Qed.

Lemma run_print (s : string) (w : world) : run (print s) w = (inr tt, put_stdout s w).
Proof. reflexivity. Qed.

Lemma trace_print (s : string) (w : world) : trace (print s) w = [Stdout s].
Proof. reflexivity. Qed.

Lemma run_save_image (p : string) (pic : picture) (w : world) :
  run (save_image p pic) w = (inr tt, snd (exec (SaveImage p pic) w)).
Proof. reflexivity. Qed.

Lemma trace_save_image (p : string) (pic : picture) (w : world) :
  trace (save_image p pic) w = [SaveImage p pic].
Proof. reflexivity. Qed.

Lemma run_writerow (p : string) (row : list string) (w : world) :
  run (writerow p row) w = (inr tt, snd (exec (FileWrite p (Csv.line row)) w)).
Proof. reflexivity. Qed.

Lemma trace_writerow (p : string) (row : list string) (w : world) :
  trace (writerow p row) w = [FileWrite p (Csv.line row)].
Proof. reflexivity. Qed.

Lemma run_open_write (p : string) (w : world) :
  run (open_write p) w = (inr tt, snd (exec (OpenWrite p) w)).
Proof. reflexivity. Qed.

Lemma trace_open_write (p : string) (w : world) : trace (open_write p) w = [OpenWrite p].
Proof. reflexivity. Qed.

(** ** The decode loop *)

Arguments Float.of_fraction : simpl never.
Arguments Float.fraction_mul : simpl never.
Arguments Float.add : simpl never.
Arguments Float.format_6f : simpl never.
Arguments Float.of_string : simpl never.
Arguments Path.join : simpl never.
Arguments Path.dirname : simpl never.
Arguments frame_filename : simpl never.
Arguments Csv.line : simpl never.
Arguments Text.strip : simpl never.

Section DecodeLoop.
Variables (out : string) (tb : Q) (off : Float.float).

Lemma trace_decode_loop (fr : list frame) (i : nat) (w : world) :
  trace (decode_loop out (csv_path out) tb off i fr) w = loop_cmds out (written tb off i fr).
Proof.
  revert i w. induction fr as [| f rest IH]; intros i w; cbn [decode_loop written];
    [reflexivity |].
  destruct (pts f) as [p |]; [| apply IH].
  unfold float_of_fraction, timestamp_seconds.
  destruct (Float.of_fraction (Float.fraction_mul p tb)) as [x |]; [| reflexivity].
  cbn [bind].
  rewrite trace_bind, trace_save_image, run_save_image.
  rewrite trace_bind, trace_writerow, run_writerow.
  rewrite trace_bind.
  unfold loop_cmds. cbn [map concat]. unfold shot_cmds, frame_path, csv_row.
  cbn [index stamp shot_picture app]. do 2 f_equal.
  destruct (i mod 50 =? 0)%nat.
  - rewrite trace_print, run_print, IH. reflexivity.
  - cbn [trace run app]. apply IH.
Qed.

Lemma result_decode_loop (fr : list frame) (i : nat) (w : world) :
  fst (run (decode_loop out (csv_path out) tb off i fr) w) =
  if overflows tb fr then inl overflow_error else inr tt.
Proof.
  revert i w. induction fr as [| f rest IH]; intros i w; cbn [decode_loop overflows];
    [reflexivity |].
  destruct (pts f) as [p |]; [| apply IH].
  unfold float_of_fraction.
  destruct (Float.of_fraction (Float.fraction_mul p tb)) as [x |]; [| reflexivity].
  cbn [bind].
  rewrite run_bind, run_save_image, run_bind, run_writerow, run_bind.
  destruct (i mod 50 =? 0)%nat.
  - rewrite run_print. apply IH.
  - cbn [run]. apply IH.
Qed.

End DecodeLoop.

(** ** [try ... except] *)

Lemma run_try_except {A : Type} (p : prog A) (h : exn -> option (prog A)) (w : world) :
  run (try_except p h) w =
  match run p w with
  | (inl e, w') => match h e with Some q => run q w' | None => (inl e, w') end
  | (inr a, w') => (inr a, w')
  end.
Proof.
  revert w. induction p as [a | e | c k IH]; intros w; simpl.
  - reflexivity.
  - destruct (h e); reflexivity.
  - destruct (exec c w) as [r w']. apply IH.
Qed.

Lemma trace_try_except {A : Type} (p : prog A) (h : exn -> option (prog A)) (w : world) :
  trace (try_except p h) w =
  (trace p w ++
   match run p w with
   | (inl e, w') => match h e with Some q => trace q w' | None => [] end
   | (inr _, _) => []
   end)%list.
Proof.
  revert w. induction p as [a | e | c k IH]; intros w; simpl.
  - reflexivity.
  - destruct (h e); reflexivity.
  - destruct (exec c w) as [r w']. simpl. f_equal. apply IH.
Qed.

(** ** The phases of [extract_frames] *)

Section Phases.
Variable float_repr : Float.float -> string.

Lemma replay_stdout_fs (msgs : list string) (w : world) :
  fs (replay (map Stdout msgs) w) = fs w.
Proof.
  revert w. induction msgs as [| m msgs IH]; intros w; [reflexivity |].
  unfold replay in *. simpl. now rewrite IH.
Qed.

Lemma run_load_start_offset (v : string) (w : world) :
  run (load_start_offset float_repr v) w =
  (start_offset w v, replay (offset_cmds float_repr w v) w).
Proof.
  unfold load_start_offset, start_offset, offset_cmds, start_offset_notice.
  fold (sidecar_path v).
  rewrite run_bind, run_path_exists.
  destruct (fs w !! sidecar_path v) as [n |] eqn:E.
  - rewrite bool_decide_eq_true_2 by eauto.
    rewrite run_try_except, run_bind, run_read_text.
    destruct (fst (exec (ReadText (sidecar_path v)) w)) as [e | content].
    + destruct (is_ValueError e); reflexivity.
    + rewrite run_bind. unfold float_of_string.
      destruct (Float.of_string (Text.strip content)) as [x |]; reflexivity.
  - rewrite bool_decide_eq_false_2 by (intros [? ?]; discriminate).
    reflexivity.
Qed.

Lemma trace_load_start_offset (v : string) (w : world) :
  trace (load_start_offset float_repr v) w = offset_cmds float_repr w v.
Proof.
  unfold load_start_offset, start_offset, offset_cmds, start_offset_notice.
  fold (sidecar_path v).
  rewrite trace_bind, trace_path_exists, run_path_exists.
  cbn [app]. f_equal.
  destruct (fs w !! sidecar_path v) as [n |] eqn:E.
  - rewrite bool_decide_eq_true_2 by eauto.
    rewrite trace_try_except, trace_bind, run_bind, trace_read_text, run_read_text.
    destruct (fst (exec (ReadText (sidecar_path v)) w)) as [e | content].
    + cbn [app]. destruct (is_ValueError e); reflexivity.
    + cbn [app]. f_equal. rewrite trace_bind, run_bind. unfold float_of_string.
      destruct (Float.of_string (Text.strip content)) as [x |]; reflexivity.
  - rewrite bool_decide_eq_false_2 by (intros [? ?]; discriminate).
    reflexivity.
Qed.

Lemma run_ensure_dir (out : string) (w : world) :
  run (present <- path_exists out ;;
       if negb present then makedirs out else Ret tt)%prog w = (inr tt, ensure_dir out w).
Proof.
  rewrite run_bind, run_path_exists. unfold ensure_dir.
  destruct (bool_decide (is_Some (fs w !! out))); reflexivity.
Qed.

Lemma trace_ensure_dir (out : string) (w : world) :
  trace (present <- path_exists out ;;
         if negb present then makedirs out else Ret tt)%prog w = dir_cmds out w.
Proof.
  rewrite trace_bind, trace_path_exists, run_path_exists. unfold dir_cmds.
  destruct (bool_decide (is_Some (fs w !! out))); reflexivity.
Qed.

Lemma av_open_ensure_dir (out : string) (w : world) :
  av_open (ensure_dir out w) = av_open w.
Proof. unfold ensure_dir. destruct (bool_decide _); reflexivity. Qed.

Lemma bind_assoc {A B C : Type} (p : prog A) (f : A -> prog B) (g : B -> prog C) :
  forall w, run (bind (bind p f) g) w = run (bind p (fun a => bind (f a) g)) w.
Proof.
  induction p as [a | e | c k IH]; intros w; simpl; try reflexivity.
  destruct (exec c w) as [r w']. apply IH.
Qed.

Lemma run_body (v out : string) (s : stream) (off : Float.float) (w : world) :
  fst (run (print ("Processing: " ++ v) ;;
            open_write (csv_path out) ;;
            writerow (csv_path out) ["filename"; "timestamp"] ;;
            decode_loop out (csv_path out) (time_base s) off 0 (frames s) ;;
            print ("Done! Frames and CSV saved to " ++ out))%prog w) =
  if overflows (time_base s) (frames s) then inl overflow_error else inr tt.
Proof.
  rewrite run_bind, run_print, run_bind, run_open_write, run_bind, run_writerow, run_bind.
  match goal with |- context [run (decode_loop ?a ?b ?c ?d ?e ?f) ?w] =>
    pose proof (result_decode_loop a c d f e w) as H;
    destruct (run (decode_loop a b c d e f) w) as [[e0 | []] w'] end;
  cbn [fst] in H; destruct (overflows (time_base s) (frames s)); try discriminate.
  - now inversion H.
  - reflexivity.
Qed.

Lemma trace_body (v out : string) (s : stream) (off : Float.float) (w : world) :
  trace (print ("Processing: " ++ v) ;;
         open_write (csv_path out) ;;
         writerow (csv_path out) ["filename"; "timestamp"] ;;
         decode_loop out (csv_path out) (time_base s) off 0 (frames s) ;;
         print ("Done! Frames and CSV saved to " ++ out))%prog w =
  body_cmds v out s off.
Proof.
  rewrite trace_bind, trace_print, run_print, trace_bind, trace_open_write, run_open_write,
    trace_bind, trace_writerow, run_writerow, trace_bind, trace_decode_loop.
  unfold body_cmds. cbn [app]. do 3 f_equal.
  match goal with |- context [run (decode_loop ?a ?b ?c ?d ?e ?f) ?w] =>
    pose proof (result_decode_loop a c d f e w) as H;
    destruct (run (decode_loop a b c d e f) w) as [[e0 | []] w'] end;
  cbn [fst] in H; destruct (overflows (time_base s) (frames s)); try discriminate;
  reflexivity.
Qed.

Lemma trace_extract_frames (v out : string) (w : world) :
  trace (extract_frames float_repr v out) w = main_cmds float_repr w v out.
Proof.
  unfold extract_frames, main_cmds.
  rewrite trace_bind, trace_path_exists, run_path_exists, trace_bind.
  unfold dir_cmds. cbn [app]. f_equal.
  set (w1 := ensure_dir out w).
  assert (Hdir : run (if negb (bool_decide (is_Some (fs w !! out)))
                      then makedirs out else Ret tt) w = (inr tt, w1)).
  { unfold w1, ensure_dir. destruct (bool_decide _); reflexivity. }
  rewrite Hdir.
  assert (Htr : trace (if negb (bool_decide (is_Some (fs w !! out)))
                       then makedirs out else Ret tt) w =
                if bool_decide (is_Some (fs w !! out)) then [] else [MakeDirs out]).
  { destruct (bool_decide _); reflexivity. }
  rewrite Htr. f_equal.
  rewrite trace_bind, trace_try_except, run_try_except, trace_bind, run_bind,
    trace_open_container, run_open_container.
  assert (Hav : av_open w1 v = av_open w v) by (unfold w1; now rewrite av_open_ensure_dir).
  rewrite Hav.
  destruct (av_open w v) as [e | c].
  - reflexivity.
  - cbn [app trace run]. f_equal. destruct (video c) as [| s more]; [reflexivity |].
    rewrite trace_bind, trace_load_start_offset, run_load_start_offset. f_equal.
    destruct (start_offset w1 v) as [e | off]; [reflexivity |].
    apply trace_body.
Qed.

Lemma result_extract_frames (v out : string) (w : world) :
  fst (run (extract_frames float_repr v out) w) = main_result w v out.
Proof.
  unfold extract_frames, main_result.
  rewrite run_bind, run_path_exists, run_bind.
  set (w1 := ensure_dir out w).
  assert (Hdir : run (if negb (bool_decide (is_Some (fs w !! out)))
                      then makedirs out else Ret tt) w = (inr tt, w1)).
  { unfold w1, ensure_dir. destruct (bool_decide _); reflexivity. }
  rewrite Hdir, run_bind, run_try_except, run_bind, run_open_container.
  assert (Hav : av_open w1 v = av_open w v) by (unfold w1; now rewrite av_open_ensure_dir).
  rewrite Hav.
  destruct (av_open w v) as [e | c].
  - reflexivity.
  - cbn [run]. destruct (video c) as [| s more]; [reflexivity |].
    rewrite run_bind, run_load_start_offset.
    destruct (start_offset w1 v) as [e | off]; [reflexivity |].
    apply run_body.
Qed.

(** the world a run leaves is the effect of its commands *)
Lemma world_extract_frames (v out : string) (w : world) :
  snd (run (extract_frames float_repr v out) w) = replay (main_cmds float_repr w v out) w.
Proof. rewrite run_replay. f_equal. apply trace_extract_frames. Qed.

End Phases.

(** ** Strings *)

Section TextFacts.
Import Text.

Lemma forall_chars_app (p : ascii -> bool) (s t : string) :
  forall_chars p (s ++ t) = (forall_chars p s && forall_chars p t)%bool.
Proof.
  induction s as [| a s IH]; simpl; [reflexivity |].
  rewrite IH. now rewrite andb_assoc.
Qed.

Lemma forall_chars_impl (p q : ascii -> bool) (s : string) :
  (forall a, p a = true -> q a = true) ->
  forall_chars p s = true -> forall_chars q s = true.
Proof.
  intros Hpq. induction s as [| a s IH]; simpl; [reflexivity |].
  intros [Ha Hs]%andb_true_iff. rewrite (Hpq a Ha). now apply IH.
Qed.

Lemma contains_app (c : ascii) (s t : string) :
  contains c (s ++ t) = (contains c s || contains c t)%bool.
Proof.
  induction s as [| a s IH]; simpl; [reflexivity |].
  destruct (Ascii.eqb a c); [reflexivity | apply IH].
Qed.

Lemma contains_forall (c : ascii) (p : ascii -> bool) (s : string) :
  p c = false -> forall_chars p s = true -> contains c s = false.
Proof.
  intros Hc. induction s as [| a s IH]; simpl; [reflexivity |].
  intros [Ha Hs]%andb_true_iff. destruct (Ascii.eqb_spec a c) as [-> |]; [congruence |].
  now apply IH.
Qed.

Lemma length_app (s t : string) :
  String.length (s ++ t) = (String.length s + String.length t)%nat.
Proof. induction s as [| a s IH]; simpl; [reflexivity | now rewrite IH]. Qed.

Lemma append_nil_r (s : string) : s ++ "" = s.
Proof.
  induction s as [| a s IH]; [reflexivity |].
  change (String a (s ++ "") = String a s). now f_equal.
Qed.

Lemma append_assoc (s t u : string) : (s ++ t) ++ u = s ++ t ++ u.
Proof.
  induction s as [| a s IH]; [reflexivity |].
  change (String a ((s ++ t) ++ u) = String a (s ++ t ++ u)). now f_equal.
Qed.

Lemma append_inv_head (s t u : string) : s ++ t = s ++ u -> t = u.
Proof.
  induction s as [| a s IH]; [easy |].
  change (String a (s ++ t) = String a (s ++ u) -> t = u).
  intros H. inversion H. auto.
Qed.

Lemma length_replicate_char (n : nat) (c : ascii) :
  String.length (replicate_char n c) = n.
Proof. induction n as [| n IH]; simpl; [reflexivity | now rewrite IH]. Qed.

Lemma forall_chars_replicate (p : ascii -> bool) (n : nat) (c : ascii) :
  p c = true -> forall_chars p (replicate_char n c) = true.
Proof. intros Hc. induction n as [| n IH]; simpl; [reflexivity | now rewrite Hc]. Qed.

End TextFacts.

(** ** Decimal rendering *)

Section DecimalFacts.
Import Text Decimal.
Local Open Scope N_scope.

Lemma digit_char_value (d : N) : d < 10 -> N_of_ascii (digit_char d) - 48 = d.
Proof.
  intros H. unfold digit_char.
  assert (d = 0 \/ d = 1 \/ d = 2 \/ d = 3 \/ d = 4 \/ d = 5 \/ d = 6 \/ d = 7 \/ d = 8 \/ d = 9)
    as Hd by lia.
  repeat destruct Hd as [-> | Hd]; try subst d; reflexivity.
Qed.

Lemma digit_char_is_digit (d : N) : d < 10 -> is_digit (digit_char d) = true.
Proof.
  intros H. unfold digit_char.
  assert (d = 0 \/ d = 1 \/ d = 2 \/ d = 3 \/ d = 4 \/ d = 5 \/ d = 6 \/ d = 7 \/ d = 8 \/ d = 9)
    as Hd by lia.
  repeat destruct Hd as [-> | Hd]; try subst d; reflexivity.
Qed.

Lemma mod10_lt (n : N) : n mod 10 < 10.
Proof. apply N.mod_lt. discriminate. Qed.

Lemma digits_go_app (fuel : nat) (n : N) (acc : string) :
  digits_go fuel n acc = (digits_go fuel n "" ++ acc)%string.
Proof.
  revert n acc. induction fuel as [| k IH]; intros n acc; simpl; [reflexivity |].
  destruct (n / 10 =? 0); [reflexivity |].
  rewrite IH. rewrite (IH _ (String _ "")). now rewrite append_assoc.
Qed.

Lemma digits_go_step (k : nat) (n : N) :
  digits_go (S k) n "" =
  if n / 10 =? 0 then String (digit_char (n mod 10)) ""
  else (digits_go k (n / 10) "" ++ String (digit_char (n mod 10)) "")%string.
Proof. simpl. destruct (n / 10 =? 0); [reflexivity | apply digits_go_app]. Qed.

Lemma digits_go_digits (fuel : nat) (n : N) :
  forall_chars is_digit (digits_go fuel n "") = true.
Proof.
  revert n. induction fuel as [| k IH]; intros n; [reflexivity |].
  rewrite digits_go_step. destruct (n / 10 =? 0).
  - simpl. now rewrite digit_char_is_digit by apply mod10_lt.
  - rewrite forall_chars_app, IH. simpl.
    now rewrite digit_char_is_digit by apply mod10_lt.
Qed.

Lemma digits_go_nonempty (k : nat) (n : N) : digits_go (S k) n "" <> ""%string.
Proof.
  rewrite digits_go_step. destruct (n / 10 =? 0); [discriminate |].
  destruct (digits_go k (n / 10) ""); discriminate.
Qed.

Lemma value_go_app (a : N) (s t : string) :
  value_go a (s ++ t) = value_go (value_go a s) t.
Proof. revert a. induction s as [| c s IH]; intros a; simpl; [reflexivity | apply IH]. Qed.

Lemma value_digits_go (fuel : nat) (n : N) :
  n < 2 ^ N.of_nat fuel -> value_go 0 (digits_go fuel n "") = n.
Proof.
  revert n. induction fuel as [| k IH]; intros n Hn.
  - simpl in *. lia.
  - rewrite digits_go_step. destruct (N.eqb_spec (n / 10) 0) as [Hz | Hnz].
    + simpl. rewrite digit_char_value by apply mod10_lt.
      pose proof (N.div_mod n 10 ltac:(discriminate)). lia.
    + rewrite value_go_app, IH.
      * simpl. rewrite digit_char_value by apply mod10_lt.
        pose proof (N.div_mod n 10 ltac:(discriminate)). lia.
      * rewrite Nat2N.inj_succ, N.pow_succ_r' in Hn.
        apply N.Div0.div_lt_upper_bound. lia.
Qed.

Lemma str_N_value (n : N) : value (str_N n) = n.
Proof.
  unfold value, str_N. apply value_digits_go.
  rewrite Nat2N.inj_succ, N2Nat.id.
  destruct n as [| p]; [reflexivity |].
  apply N.log2_spec. reflexivity.
Qed.

Lemma str_N_digits (n : N) : forall_chars is_digit (str_N n) = true.
Proof. apply digits_go_digits. Qed.

Lemma str_N_nonempty (n : N) : str_N n <> ""%string.
Proof. apply digits_go_nonempty. Qed.

Lemma value_go_zeros (k : nat) (s : string) :
  value_go 0 (replicate_char k "0" ++ s) = value_go 0 s.
Proof. induction k as [| k IH]; simpl; [reflexivity | apply IH]. Qed.

Lemma zfill_value (w : nat) (s : string) : value (zfill w s) = value s.
Proof. apply value_go_zeros. Qed.

Lemma zfill_digits (w : nat) (s : string) :
  forall_chars is_digit s = true -> forall_chars is_digit (zfill w s) = true.
Proof.
  intros H. unfold zfill. rewrite forall_chars_app, H.
  now rewrite forall_chars_replicate.
Qed.

Lemma zfill_length (w : nat) (s : string) :
  (String.length s <= w)%nat -> String.length (zfill w s) = w.
Proof.
  intros H. unfold zfill. rewrite length_app, length_replicate_char. lia.
Qed.

Lemma zfill_nonempty (w : nat) (s : string) : s <> ""%string -> zfill w s <> ""%string.
Proof.
  intros Hs. unfold zfill. destruct (replicate_char _ _); [exact Hs | discriminate].
Qed.

Lemma format_06d_value (i : nat) : value (format_06d i) = N.of_nat i.
Proof. unfold format_06d. now rewrite zfill_value, str_N_value. Qed.

Lemma format_06d_inj (i j : nat) : format_06d i = format_06d j -> i = j.
Proof.
  intros H. apply Nat2N.inj. rewrite <- !format_06d_value. now rewrite H.
Qed.

Lemma format_06d_digits (i : nat) : forall_chars is_digit (format_06d i) = true.
Proof. apply zfill_digits, str_N_digits. Qed.

Lemma format_06d_nonempty (i : nat) : format_06d i <> ""%string.
Proof. apply zfill_nonempty, str_N_nonempty. Qed.

(** a number below [10^k] has at most [k] digits *)
Lemma digits_go_length (fuel : nat) (n : N) (k : nat) :
  n < 10 ^ N.of_nat (S k) -> (String.length (digits_go (S fuel) n "") <= S k)%nat.
Proof.
  revert n k. induction fuel as [| f IH]; intros n k Hn.
  - simpl. destruct (n / 10 =? 0); simpl; lia.
  - rewrite digits_go_step. destruct (N.eqb_spec (n / 10) 0) as [Hz | Hnz]; [simpl; lia |].
    rewrite length_app. cbn [String.length].
    destruct k as [| k].
    + exfalso. apply Hnz. apply N.div_small. simpl in Hn. lia.
    + assert (String.length (digits_go (S f) (n / 10) "") <= S k)%nat; [| lia].
      apply IH. rewrite Nat2N.inj_succ, N.pow_succ_r' in Hn.
      apply N.Div0.div_lt_upper_bound. lia.
Qed.

Lemma str_N_length (n : N) (k : nat) :
  n < 10 ^ N.of_nat (S k) -> (String.length (str_N n) <= S k)%nat.
Proof. apply digits_go_length. Qed.

End DecimalFacts.

(** ** Paths and file names *)

Section PathFacts.
Import Text.

Lemma append_inv_tail (s t u : string) : s ++ u = t ++ u -> s = t.
Proof.
  revert t. induction s as [| a s IH]; intros [| b t] H.
  - reflexivity.
  - exfalso. apply (f_equal String.length) in H.
    rewrite !length_app in H. cbn [String.length] in H. lia.
  - exfalso. apply (f_equal String.length) in H.
    rewrite !length_app in H. cbn [String.length] in H. lia.
  - change (String a (s ++ u) = String b (t ++ u)) in H. inversion H. f_equal. now apply IH.
Qed.

Lemma startswith_no_slash (b : string) : contains slash b = false -> startswith slash b = false.
Proof. destruct b as [| a r]; [reflexivity |]. simpl. now destruct (Ascii.eqb a slash). Qed.

Lemma join_inj (a b1 b2 : string) :
  startswith slash b1 = false -> startswith slash b2 = false ->
  Path.join a b1 = Path.join a b2 -> b1 = b2.
Proof.
  unfold Path.join. intros -> ->.
  destruct (String.eqb a "" || endswith slash a)%bool; intros H.
  - now apply append_inv_head in H.
  - apply append_inv_head in H. now apply (append_inv_head "/") in H.
Qed.

Lemma join_longer (a b : string) :
  startswith slash b = false -> b <> "" ->
  (String.length a < String.length (Path.join a b))%nat.
Proof.
  unfold Path.join. intros -> Hb.
  assert (0 < String.length b)%nat by (destruct b; [congruence | simpl; lia]).
  destruct (String.eqb a "" || endswith slash a)%bool; rewrite !length_app; lia.
Qed.

Lemma join_not_dir (a b : string) :
  startswith slash b = false -> b <> "" -> Path.join a b <> a.
Proof.
  intros H1 H2 E. pose proof (join_longer a b H1 H2) as L. rewrite E in L. lia.
Qed.

Lemma tail_no_slash (b : string) : contains slash b = false -> Path.tail b = b.
Proof.
  destruct b as [| a r]; [reflexivity |]. simpl.
  destruct (Ascii.eqb a slash); [discriminate |]. now intros ->.
Qed.

Lemma tail_app_slash (x b : string) :
  contains slash b = false -> Path.tail (x ++ "/" ++ b) = b.
Proof.
  intros Hb. induction x as [| c x IH].
  - change ("" ++ "/" ++ b) with (String slash b). simpl. now rewrite Hb.
  - change (String c x ++ "/" ++ b) with (String c (x ++ "/" ++ b)).
    cbn [Path.tail]. rewrite contains_app.
    change ("/" ++ b) with (String slash b). cbn [contains].
    rewrite Ascii.eqb_refl, orb_true_r. exact IH.
Qed.

Lemma endswith_split (a : string) :
  endswith slash a = true -> exists x, a = x ++ "/".
Proof.
  unfold endswith. induction a as [| c a IH]; [discriminate |].
  destruct a as [| c' a'].
  - simpl. intros H. apply Ascii.eqb_eq in H. subst c. now exists "".
  - intros H. destruct (IH H) as [x Hx]. exists (String c x).
    change (String c x ++ "/") with (String c (x ++ "/")). now rewrite <- Hx.
Qed.

(** the last component of a joined path is the name joined *)
Lemma tail_join (a b : string) : contains slash b = false -> Path.tail (Path.join a b) = b.
Proof.
  intros Hb. unfold Path.join. rewrite (startswith_no_slash b Hb).
  destruct (String.eqb_spec a "") as [-> | Hne].
  - simpl. change ("" ++ b) with b. now apply tail_no_slash.
  - simpl. destruct (endswith slash a) eqn:E.
    + destruct (endswith_split a E) as [x ->].
      rewrite append_assoc. now apply tail_app_slash.
    + now apply tail_app_slash.
Qed.

Lemma join_tail_inj (a1 a2 b1 b2 : string) :
  contains slash b1 = false -> contains slash b2 = false ->
  Path.join a1 b1 = Path.join a2 b2 -> b1 = b2.
Proof.
  intros H1 H2 E. rewrite <- (tail_join a1 b1 H1), <- (tail_join a2 b2 H2). now rewrite E.
Qed.

Lemma frame_filename_no_slash (i : nat) : contains slash (frame_filename i) = false.
Proof.
  unfold frame_filename. rewrite !contains_app.
  rewrite (contains_forall slash is_digit (Decimal.format_06d i) eq_refl
             (format_06d_digits i)).
  reflexivity.
Qed.

Lemma frame_filename_inj (i j : nat) : frame_filename i = frame_filename j -> i = j.
Proof.
  unfold frame_filename. intros H. apply append_inv_head in H.
  apply append_inv_tail in H. now apply format_06d_inj.
Qed.

Lemma frame_filename_starts (i : nat) :
  exists a r, frame_filename i = "frame_" ++ String a r /\ is_digit a = true.
Proof.
  unfold frame_filename. pose proof (format_06d_digits i) as Hd.
  pose proof (format_06d_nonempty i) as Hn.
  destruct (Decimal.format_06d i) as [| a r]; [congruence |].
  simpl in Hd. apply andb_true_iff in Hd as [Ha _].
  exists a, (r ++ ".jpg"). split; [reflexivity | exact Ha].
Qed.

Lemma frame_filename_not_csv (i : nat) : frame_filename i <> "frame_timestamps.csv".
Proof.
  destruct (frame_filename_starts i) as (a & r & -> & Ha). intros H.
  apply (append_inv_head "frame_") in H. inversion H. subst a. discriminate.
Qed.


Lemma frame_filename_nonempty (i : nat) : frame_filename i <> "".
Proof. destruct (frame_filename_starts i) as (a & r & -> & Ha). discriminate. Qed.

Lemma frame_path_inj (out : string) (i j : nat) :
  frame_path out i = frame_path out j -> i = j.
Proof.
  unfold frame_path. intros H. apply frame_filename_inj.
  eapply join_tail_inj; eauto using frame_filename_no_slash.
Qed.

Lemma frame_path_not_csv (out : string) (i : nat) : frame_path out i <> csv_path out.
Proof.
  unfold frame_path, csv_path. intros H.
  apply join_tail_inj in H; [| apply frame_filename_no_slash | reflexivity].
  now apply frame_filename_not_csv in H.
Qed.



Lemma frame_path_not_dir (out : string) (i : nat) : frame_path out i <> out.
Proof.
  apply join_not_dir; [apply startswith_no_slash, frame_filename_no_slash |].
  apply frame_filename_nonempty.
Qed.

Lemma csv_path_not_dir (out : string) : csv_path out <> out.
Proof. apply join_not_dir; [reflexivity | discriminate]. Qed.

End PathFacts.

(** ** The effect of a run on the world *)

Section Effects.

Lemma replay_cons (c : cmd) (cs : list cmd) (w : world) :
  replay (c :: cs) w = replay cs (snd (exec c w)).
Proof. reflexivity. Qed.

Lemma stdout_replay (cs : list cmd) (w : world) :
  stdout (replay cs w) = (stdout w ++ printed cs)%list.
Proof.
  revert w. induction cs as [| c cs IH]; intros w.
  - simpl. now rewrite app_nil_r.
  - rewrite replay_cons, IH. destruct c; simpl; try reflexivity.
    now rewrite <- app_assoc.
Qed.


Lemma unreadable_replay (cs : list cmd) (w : world) :
  unreadable (replay cs w) = unreadable w.
Proof.
  revert w. induction cs as [| c cs IH]; intros w; [reflexivity |].
  rewrite replay_cons, IH. destruct c; reflexivity.
Qed.

Lemma fs_replay_neutral (cs : list cmd) (w : world) :
  forallb (fun c => negb (touches_fs c)) cs = true -> fs (replay cs w) = fs w.
Proof.
  revert w. induction cs as [| c cs IH]; intros w; [reflexivity |].
  cbn [forallb]. intros [Hc Hcs]%andb_true_iff.
  rewrite replay_cons, IH by exact Hcs. destruct c; try discriminate; reflexivity.
Qed.

Lemma replay_dir_cmds (out : string) (w : world) :
  replay (dir_cmds out w) w = ensure_dir out w.
Proof.
  unfold dir_cmds, ensure_dir. destruct (bool_decide (is_Some (fs w !! out))); reflexivity.
Qed.

Lemma offset_cmds_neutral (float_repr : Float.float -> string) (w : world) (v : string) :
  forallb (fun c => negb (touches_fs c)) (offset_cmds float_repr w v) = true.
Proof.
  unfold offset_cmds. cbn [forallb touches_fs negb andb].
  rewrite forallb_app. apply andb_true_iff. split.
  - destruct (fs w !! sidecar_path v); reflexivity.
  - induction (start_offset_notice float_repr w v); [reflexivity | assumption].
Qed.

Variable out : string.

Lemma save_all_cons (s : shot) (ss : list shot) (m : gmap string node) :
  save_all out (s :: ss) m =
  save_all out ss (<[frame_path out (index s) := File (Jpeg (shot_picture s))]> m).
Proof. reflexivity. Qed.

Lemma save_all_insert (ss : list shot) (p : string) (x : node) (m : gmap string node) :
  (forall s, In s ss -> frame_path out (index s) <> p) ->
  save_all out ss (<[p := x]> m) = <[p := x]> (save_all out ss m).
Proof.
  revert m. induction ss as [| s ss IH]; intros m H; [reflexivity |].
  rewrite !save_all_cons. rewrite insert_insert_ne by (apply H; now left).
  apply IH. intros s' Hs'. apply H. now right.
Qed.

Lemma save_all_insert_csv (ss : list shot) (x : node) (m : gmap string node) :
  save_all out ss (<[csv_path out := x]> m) = <[csv_path out := x]> (save_all out ss m).
Proof. apply save_all_insert. intros s _. apply frame_path_not_csv. Qed.

Lemma lookup_save_all_other (ss : list shot) (p : string) (m : gmap string node) :
  (forall s, In s ss -> frame_path out (index s) <> p) ->
  save_all out ss m !! p = m !! p.
Proof.
  revert m. induction ss as [| s ss IH]; intros m H; [reflexivity |].
  rewrite save_all_cons, IH by (intros s' Hs'; apply H; now right).
  apply lookup_insert_ne. apply H. now left.
Qed.

Lemma lookup_save_all_in (ss : list shot) (s : shot) (m : gmap string node) :
  NoDup (map index ss) -> In s ss ->
  save_all out ss m !! frame_path out (index s) = Some (File (Jpeg (shot_picture s))).
Proof.
  revert m. induction ss as [| s0 ss IH]; intros m Hnd Hin; [destruct Hin |].
  rewrite save_all_cons. cbn [map] in Hnd. apply NoDup_cons in Hnd as [Hnotin Hnd].
  destruct Hin as [-> | Hin].
  - rewrite lookup_save_all_other; [apply lookup_insert_eq |].
    intros s' Hs' E. apply frame_path_inj in E. apply Hnotin.
    rewrite <- E. apply list_elem_of_In, in_map, Hs'.
  - now apply IH.
Qed.

Lemma shot_cmds_fs (s : shot) (w : world) (t : string) :
  fs w !! csv_path out = Some (File (Text t)) ->
  fs (replay (shot_cmds out s) w) =
  <[csv_path out := File (Text (t ++ csv_row s))]>
    (<[frame_path out (index s) := File (Jpeg (shot_picture s))]> (fs w)).
Proof.
  intros Ht. unfold shot_cmds. rewrite replay_app.
  assert (forall w', fs (replay (if (index s mod 50 =? 0)%nat
                               then [Stdout ("Saved " ++ frame_filename (index s) ++
                                             " at t=" ++ Float.format_6f (stamp s))]
                               else []) w') = fs w') as ->
    by (intros w'; destruct (index s mod 50 =? 0)%nat; reflexivity).
  unfold replay. cbn [fold_left exec snd set_fs fs].
  rewrite lookup_insert_ne by apply frame_path_not_csv. now rewrite Ht.
Qed.

Lemma loop_cmds_fs (ss : list shot) (w : world) (t : string) :
  fs w !! csv_path out = Some (File (Text t)) ->
  fs (replay (loop_cmds out ss) w) =
  <[csv_path out := File (Text (t ++ fold_right String.append "" (map csv_row ss)))]>
    (save_all out ss (fs w)).
Proof.
  revert w t. induction ss as [| s ss IH]; intros w t Ht.
  - cbn [map fold_right]. rewrite append_nil_r. unfold loop_cmds. cbn [map concat replay fold_left].
    cbn [save_all fold_left]. symmetry. now apply insert_id.
  - unfold loop_cmds. cbn [map concat]. rewrite replay_app. fold (loop_cmds out ss).
    rewrite (IH _ (t ++ csv_row s)).
    + rewrite (shot_cmds_fs s w t Ht). rewrite save_all_insert_csv, insert_insert_eq.
      cbn [fold_right]. now rewrite append_assoc, save_all_cons.
    + rewrite (shot_cmds_fs s w t Ht). apply lookup_insert_eq.
Qed.

Lemma body_cmds_fs (v : string) (s : stream) (off : Float.float) (w : world) :
  fs (replay (body_cmds v out s off) w) =
  <[csv_path out := File (Text (csv_text (written (time_base s) off 0 (frames s))))]>
    (save_all out (written (time_base s) off 0 (frames s)) (fs w)).
Proof.
  unfold body_cmds. rewrite replay_app, replay_app.
  assert (forall w', fs (replay (if overflows (time_base s) (frames s) then []
                               else [Stdout (done_notice out)]) w') = fs w') as ->
    by (intros w'; destruct (overflows _ _); reflexivity).
  rewrite (loop_cmds_fs _ _ csv_header).
  - unfold replay at 1. cbn [fold_left exec snd set_fs fs put_stdout].
    rewrite lookup_insert_eq, insert_insert_eq.
    rewrite save_all_insert_csv, insert_insert_eq. reflexivity.
  - unfold replay. cbn [fold_left exec snd set_fs fs put_stdout].
    rewrite lookup_insert_eq, insert_insert_eq. apply lookup_insert_eq.
Qed.

End Effects.

(** ** A run that reaches the decode loop *)

Section Success.
Variable float_repr : Float.float -> string.
Variables (w : world) (v out : string) (c : container) (s : stream) (more : list stream)
  (off : Float.float).
Hypothesis Hopen : av_open w v = inr c.
Hypothesis Hvideo : video c = s :: more.
Hypothesis Hoff : start_offset (ensure_dir out w) v = inr off.

Lemma main_cmds_success :
  main_cmds float_repr w v out =
  (dir_cmds out w ++ AvOpen v :: offset_cmds float_repr (ensure_dir out w) v ++
   body_cmds v out s off)%list.
Proof. unfold main_cmds. now rewrite Hopen, Hvideo, Hoff. Qed.

Lemma result_success :
  fst (run (extract_frames float_repr v out) w) =
  if overflows (time_base s) (frames s) then inl overflow_error else inr tt.
Proof. rewrite result_extract_frames. unfold main_result. now rewrite Hopen, Hvideo, Hoff. Qed.

Lemma fs_success :
  fs (snd (run (extract_frames float_repr v out) w)) =
  <[csv_path out := File (Text (csv_text (written (time_base s) off 0 (frames s))))]>
    (save_all out (written (time_base s) off 0 (frames s)) (fs (ensure_dir out w))).
Proof.
  rewrite world_extract_frames, main_cmds_success.
  rewrite replay_app, replay_dir_cmds, replay_cons. cbn [exec snd].
  rewrite replay_app, body_cmds_fs.
  now rewrite fs_replay_neutral by apply offset_cmds_neutral.
Qed.

Lemma printed_app (cs1 cs2 : list cmd) :
  printed (cs1 ++ cs2) = (printed cs1 ++ printed cs2)%list.
Proof. unfold printed. apply omap_app. Qed.

Lemma printed_stdout (msgs : list string) : printed (map Stdout msgs) = msgs.
Proof. induction msgs as [| m msgs IH]; [reflexivity |]. cbn. now f_equal. Qed.

Lemma printed_dir_cmds : printed (dir_cmds out w) = [].
Proof. unfold dir_cmds. destruct (bool_decide _); reflexivity. Qed.

Lemma printed_offset_cmds (w' : world) :
  printed (offset_cmds float_repr w' v) = start_offset_notice float_repr w' v.
Proof.
  unfold offset_cmds.
  change (printed (PathExists (sidecar_path v) :: ?l)) with (printed l).
  rewrite printed_app, printed_stdout.
  destruct (fs w' !! sidecar_path v); reflexivity.
Qed.

Lemma stdout_success :
  stdout (snd (run (extract_frames float_repr v out) w)) =
  (stdout w ++ start_offset_notice float_repr (ensure_dir out w) v ++
   [("Processing: " ++ v)%string] ++
   printed (loop_cmds out (written (time_base s) off 0 (frames s))) ++
   (if overflows (time_base s) (frames s) then [] else [done_notice out]))%list.
Proof.
  rewrite world_extract_frames, stdout_replay, main_cmds_success. f_equal.
  rewrite printed_app, printed_dir_cmds. cbn [app].
  change (printed (AvOpen v :: ?l)) with (printed l).
  rewrite printed_app, printed_offset_cmds. f_equal.
  unfold body_cmds. rewrite !printed_app. cbn [app]. f_equal.
  destruct (overflows _ _); reflexivity.
Qed.

End Success.

(** ** What the commands of a run show *)

Section Observations.
Variable float_repr : Float.float -> string.

Lemma saved_app (cs1 cs2 : list cmd) : saved (cs1 ++ cs2) = (saved cs1 ++ saved cs2)%list.
Proof. unfold saved. apply omap_app. Qed.

Lemma appended_app (p : string) (cs1 cs2 : list cmd) :
  appended p (cs1 ++ cs2) = (appended p cs1 ++ appended p cs2)%list.
Proof. unfold appended. apply omap_app. Qed.

Lemma saved_shot_cmds (out : string) (s : shot) :
  saved (shot_cmds out s) = [(frame_path out (index s), shot_picture s)].
Proof. unfold shot_cmds. destruct (index s mod 50 =? 0)%nat; reflexivity. Qed.

Lemma appended_shot_cmds (out : string) (s : shot) :
  appended (csv_path out) (shot_cmds out s) = [csv_row s].
Proof.
  unfold shot_cmds, appended. destruct (index s mod 50 =? 0)%nat; cbn;
    now rewrite String.eqb_refl.
Qed.

Lemma saved_loop_cmds (out : string) (ss : list shot) :
  saved (loop_cmds out ss) = map (fun s => (frame_path out (index s), shot_picture s)) ss.
Proof.
  induction ss as [| s ss IH]; [reflexivity |].
  unfold loop_cmds in *. cbn [map concat]. now rewrite saved_app, saved_shot_cmds, IH.
Qed.

Lemma appended_loop_cmds (out : string) (ss : list shot) :
  appended (csv_path out) (loop_cmds out ss) = map csv_row ss.
Proof.
  induction ss as [| s ss IH]; [reflexivity |].
  unfold loop_cmds in *. cbn [map concat]. now rewrite appended_app, appended_shot_cmds, IH.
Qed.

Lemma saved_dir_cmds (out : string) (w : world) : saved (dir_cmds out w) = [].
Proof. unfold dir_cmds. destruct (bool_decide _); reflexivity. Qed.

Lemma appended_dir_cmds (p out : string) (w : world) : appended p (dir_cmds out w) = [].
Proof. unfold dir_cmds. destruct (bool_decide _); reflexivity. Qed.

Lemma saved_neutral (cs : list cmd) :
  forallb (fun c => negb (touches_fs c)) cs = true -> saved cs = [].
Proof.
  induction cs as [| c cs IH]; [reflexivity |]. cbn [forallb].
  intros [Hc Hcs]%andb_true_iff. destruct c; try discriminate; cbn; now apply IH.
Qed.

Lemma appended_neutral (p : string) (cs : list cmd) :
  forallb (fun c => negb (touches_fs c)) cs = true -> appended p cs = [].
Proof.
  induction cs as [| c cs IH]; [reflexivity |]. cbn [forallb].
  intros [Hc Hcs]%andb_true_iff. destruct c; try discriminate; cbn; now apply IH.
Qed.



Variables (w : world) (v out : string) (c : container) (s : stream) (more : list stream)
  (off : Float.float).
Hypothesis Hopen : av_open w v = inr c.
Hypothesis Hvideo : video c = s :: more.
Hypothesis Hoff : start_offset (ensure_dir out w) v = inr off.



End Observations.

(** ** The frames the loop writes *)

Section Written.
Variables (tb : Q) (off : Float.float).

Lemma written_index_ge (fr : list frame) (i : nat) (sh : shot) :
  In sh (written tb off i fr) -> (i <= index sh)%nat.
Proof.
  revert i. induction fr as [| f rest IH]; intros i; cbn [written]; [easy |].
  destruct (pts f) as [p |].
  - destruct (timestamp_seconds tb off p); [| easy].
    intros [<- | H]; [reflexivity |]. apply IH in H. lia.
  - intros H. apply IH in H. lia.
Qed.

Lemma written_index_NoDup (fr : list frame) (i : nat) :
  NoDup (map index (written tb off i fr)).
Proof.
  revert i. induction fr as [| f rest IH]; intros i; cbn [written]; [constructor |].
  destruct (pts f) as [p |]; [| apply IH].
  destruct (timestamp_seconds tb off p); [| constructor].
  cbn [map index]. constructor; [| apply IH].
  intros Hin. apply list_elem_of_In, in_map_iff in Hin as (sh & E & Hin).
  apply written_index_ge in Hin. lia.
Qed.


(** when every frame has a timestamp and no conversion overflows, every
    frame is written, under its position in the stream *)
Lemma written_all (fr : list frame) (i : nat) :
  Forall (fun f => pts f <> None) fr -> overflows tb fr = false ->
  map index (written tb off i fr) = seq i (length fr) /\
  map shot_picture (written tb off i fr) = map to_image fr.
Proof.
  revert i. induction fr as [| f rest IH]; intros i Hall Hov; [split; reflexivity |].
  apply Forall_cons in Hall as [Hf Hall]. cbn [written overflows] in *.
  destruct (pts f) as [p |]; [| congruence]. unfold timestamp_seconds.
  destruct (Float.of_fraction (Float.fraction_mul p tb)) as [x |]; [| discriminate].
  destruct (IH (S i) Hall Hov) as [E1 E2]. cbn [map index shot_picture length seq].
  now rewrite E1, E2.
Qed.

(** a frame without a timestamp costs an index and nothing else *)
Lemma written_app (pre post : list frame) (i : nat) :
  overflows tb pre = false ->
  written tb off i (pre ++ post) =
  (written tb off i pre ++ written tb off (i + length pre) post)%list.
Proof.
  revert i. induction pre as [| f rest IH]; intros i Hov.
  - cbn. now rewrite Nat.add_0_r.
  - cbn [app written overflows length] in *. destruct (pts f) as [p |].
    + unfold timestamp_seconds.
      destruct (Float.of_fraction (Float.fraction_mul p tb)) as [x |]; [| discriminate].
      cbn [app]. f_equal. rewrite IH by exact Hov. do 2 f_equal. lia.
    + rewrite IH by exact Hov. do 2 f_equal. lia.
Qed.

End Written.

(** ** The text of the CSV file *)

Section CsvFacts.
Import Text.

Lemma plain_digit (a : ascii) : is_digit a = true -> Csv.plain a = true.
Proof.
  unfold is_digit, Csv.plain. intros [H1 H2]%andb_true_iff.
  apply N.leb_le in H1. apply N.leb_le in H2.
  destruct (Ascii.eqb_spec a ",") as [-> |]; [simpl in *; lia |].
  destruct (Ascii.eqb_spec a Csv.quotechar) as [-> |]; [simpl in *; lia |].
  destruct (Ascii.eqb_spec a Csv.cr) as [-> |]; [simpl in *; lia |].
  destruct (Ascii.eqb_spec a Csv.lf) as [-> |]; [simpl in *; lia |].
  reflexivity.
Qed.

Lemma needs_quote_plain (f : string) :
  forall_chars Csv.plain f = true -> Csv.needs_quote f = false.
Proof.
  intros H. unfold Csv.needs_quote.
  rewrite (contains_forall "," Csv.plain f eq_refl H).
  rewrite (contains_forall Csv.quotechar Csv.plain f eq_refl H).
  rewrite (contains_forall Csv.cr Csv.plain f eq_refl H).
  now rewrite (contains_forall Csv.lf Csv.plain f eq_refl H).
Qed.

(** a row of two plain fields is written as it is *)
Lemma line_plain (a b : string) :
  forall_chars Csv.plain a = true -> forall_chars Csv.plain b = true ->
  Csv.line [a; b] = (a ++ "," ++ b) ++ Csv.lineterminator.
Proof.
  intros Ha Hb. unfold Csv.line, Csv.field. cbn [map].
  rewrite (needs_quote_plain a Ha), (needs_quote_plain b Hb). now destruct a.
Qed.

Lemma plain_inline (a : ascii) : Csv.plain a = true -> Csv.inline a = true.
Proof.
  unfold Csv.plain, Csv.inline. intros H. apply negb_true_iff in H.
  apply orb_false_iff in H as [H Hlf]. apply orb_false_iff in H as [_ Hcr].
  now rewrite Hlf, Hcr.
Qed.

Lemma inline_not_newline (a : ascii) :
  Csv.inline a = true -> Ascii.eqb a Csv.lf = false /\ Ascii.eqb a Csv.cr = false.
Proof.
  unfold Csv.inline. intros H. apply negb_true_iff in H.
  apply orb_false_iff in H as [Hcr Hlf]. auto.
Qed.

Lemma splitlines_go_line (cur s rest : string) :
  forall_chars Csv.inline s = true ->
  splitlines_go false cur (s ++ Csv.lineterminator ++ rest) =
  (cur ++ s) :: splitlines_go false "" rest.
Proof.
  revert cur. induction s as [| a s IH]; intros cur Hs.
  - rewrite append_nil_r. reflexivity.
  - cbn [forall_chars] in Hs. apply andb_true_iff in Hs as [Ha Hs].
    destruct (inline_not_newline a Ha) as [Hlf Hcr].
    change (String a s ++ Csv.lineterminator ++ rest)
      with (String a (s ++ Csv.lineterminator ++ rest)).
    cbn [splitlines_go]. rewrite Hlf, Hcr, IH by exact Hs.
    now rewrite append_assoc.
Qed.

Lemma forall_chars_plain_app (s t : string) :
  forall_chars Csv.plain s = true -> forall_chars Csv.plain t = true ->
  forall_chars Csv.plain (s ++ t) = true.
Proof. intros Hs Ht. now rewrite forall_chars_app, Hs, Ht. Qed.

Lemma frame_filename_plain (i : nat) : forall_chars Csv.plain (frame_filename i) = true.
Proof.
  unfold frame_filename. apply forall_chars_plain_app; [reflexivity |].
  apply forall_chars_plain_app; [| reflexivity].
  apply (forall_chars_impl is_digit); [apply plain_digit | apply format_06d_digits].
Qed.

Lemma fixed6_plain (k : Z) : forall_chars Csv.plain (Float.fixed6 k) = true.
Proof.
  unfold Float.fixed6. apply forall_chars_plain_app.
  - apply (forall_chars_impl is_digit); [apply plain_digit | apply str_N_digits].
  - apply forall_chars_plain_app; [reflexivity |].
    apply (forall_chars_impl is_digit); [apply plain_digit |].
    apply zfill_digits, str_N_digits.
Qed.

Lemma format_6f_plain (x : Float.float) : forall_chars Csv.plain (Float.format_6f x) = true.
Proof.
  unfold Float.format_6f. destruct x as [s | s | | s m e].
  - apply forall_chars_plain_app; [now destruct s | apply fixed6_plain].
  - now destruct s.
  - reflexivity.
  - apply forall_chars_plain_app; [now destruct s | apply fixed6_plain].
Qed.

(** the text a written frame adds to the file, without the line end *)
Lemma csv_row_plain (s : shot) :
  csv_row s =
  (frame_filename (index s) ++ "," ++ Float.format_6f (stamp s)) ++ Csv.lineterminator.
Proof. apply line_plain; [apply frame_filename_plain | apply format_6f_plain]. Qed.

Lemma splitlines_rows (ss : list shot) :
  splitlines_go false "" (fold_right String.append "" (map csv_row ss)) =
  map (fun s => frame_filename (index s) ++ "," ++ Float.format_6f (stamp s)) ss.
Proof.
  induction ss as [| s ss IH]; [reflexivity |].
  cbn [map fold_right]. rewrite csv_row_plain, append_assoc, splitlines_go_line.
  - now rewrite IH.
  - rewrite !forall_chars_app.
    rewrite (forall_chars_impl _ _ _ plain_inline (frame_filename_plain (index s))).
    now rewrite (forall_chars_impl _ _ _ plain_inline (format_6f_plain (stamp s))).
Qed.

(** the lines of the CSV file: the header, then one line per written frame *)
Lemma splitlines_csv_text (ss : list shot) :
  splitlines (csv_text ss) =
  "filename,timestamp"
  :: map (fun s => frame_filename (index s) ++ "," ++ Float.format_6f (stamp s)) ss.
Proof.
  unfold splitlines, csv_text.
  change csv_header with ("filename,timestamp" ++ Csv.lineterminator).
  rewrite append_assoc, splitlines_go_line by reflexivity.
  now rewrite splitlines_rows.
Qed.

End CsvFacts.

(** ** Fixed-point rendering *)

Section FormatFacts.
Import Text.

Lemma span_digits_app (d r : string) :
  forall_chars is_digit d = true -> startswith "." r = true ->
  Float.span_digits (d ++ r) = (d, r).
Proof.
  intros Hd Hr. induction d as [| a d IH].
  - destruct r as [| b r]; [discriminate |]. simpl in Hr. apply Ascii.eqb_eq in Hr. now subst b.
  - cbn [forall_chars] in Hd. apply andb_true_iff in Hd as [Ha Hd].
    change (String a d ++ r) with (String a (d ++ r)).
    cbn [Float.span_digits]. now rewrite Ha, IH.
Qed.




End FormatFacts.

(** ** Rounding *)

Section Rounding.
Local Open Scope Z_scope.

Lemma fexp_ge (e : Z) : -1074 <= fexp e.
Proof. unfold SpecFloat.fexp, emin, Float.prec, Float.emax. lia. Qed.

Lemma fexp_eq (e : Z) : fexp e = Z.max (e - 53) (-1074).
Proof. reflexivity. Qed.

Lemma digits2_pos_bounds (p : positive) :
  2 ^ (Zpos (digits2_pos p) - 1) <= Zpos p < 2 ^ Zpos (digits2_pos p).
Proof.
  induction p as [p IH | p IH |]; cbn [digits2_pos].
  - rewrite Pos2Z.inj_succ, (Pos2Z.inj_xI p).
    replace (Z.succ (Zpos (digits2_pos p)) - 1) with (Z.succ (Zpos (digits2_pos p) - 1)) by lia.
    rewrite !Z.pow_succ_r by lia.
    remember (2 ^ (Zpos (digits2_pos p) - 1)) as a. remember (2 ^ Zpos (digits2_pos p)) as b.
    clear Heqa Heqb. lia.
  - rewrite Pos2Z.inj_succ, (Pos2Z.inj_xO p).
    replace (Z.succ (Zpos (digits2_pos p)) - 1) with (Z.succ (Zpos (digits2_pos p) - 1)) by lia.
    rewrite !Z.pow_succ_r by lia.
    remember (2 ^ (Zpos (digits2_pos p) - 1)) as a. remember (2 ^ Zpos (digits2_pos p)) as b.
    clear Heqa Heqb. lia.
  - cbn. lia.
Qed.

Lemma shr_1_m (mrs : shr_record) :
  0 <= shr_m mrs -> shr_m (shr_1 mrs) = shr_m mrs / 2.
Proof.
  destruct mrs as [m r s]. cbn [shr_m]. intros H.
  destruct m as [| p | p]; [reflexivity | | lia].
  destruct p as [p | p |]; cbn [shr_1 shr_m].
  - rewrite (Pos2Z.inj_xI p). apply Z.div_unique with (r := 1); lia.
  - rewrite (Pos2Z.inj_xO p). apply Z.div_unique with (r := 0); lia.
  - reflexivity.
Qed.

Lemma iter_shr_m (n : positive) (mrs : shr_record) :
  0 <= shr_m mrs ->
  shr_m (SpecFloat.iter_pos shr_1 n mrs) = shr_m mrs / 2 ^ Zpos n.
Proof.
  revert mrs. induction n as [n IH | n IH |]; intros mrs H; cbn [SpecFloat.iter_pos].
  - assert (H1 : 0 <= shr_m (shr_1 mrs)) by (rewrite shr_1_m by exact H; now apply Z.div_pos).
    assert (H2 : 0 <= shr_m (SpecFloat.iter_pos shr_1 n (shr_1 mrs))).
    { rewrite IH by exact H1. apply Z.div_pos; [exact H1 | now apply Z.pow_pos_nonneg]. }
    rewrite IH, IH, shr_1_m by assumption.
    rewrite !Z.div_div by (try apply Z.pow_pos_nonneg; try apply Z.mul_pos_pos;
                           try apply Z.pow_pos_nonneg; lia || (apply Z.pow_nonzero; lia)).
    f_equal. rewrite (Pos2Z.inj_xI n).
    replace (2 * Zpos n + 1) with (1 + Zpos n + Zpos n) by lia.
    rewrite !Z.pow_add_r by lia. change (2 ^ 1) with 2. ring.
  - assert (H2 : 0 <= shr_m (SpecFloat.iter_pos shr_1 n mrs)).
    { rewrite IH by exact H. apply Z.div_pos; [exact H | now apply Z.pow_pos_nonneg]. }
    rewrite IH, IH by assumption.
    rewrite Z.div_div by (try apply Z.pow_pos_nonneg; lia || (apply Z.pow_nonzero; lia)).
    f_equal. rewrite (Pos2Z.inj_xO n).
    replace (2 * Zpos n) with (Zpos n + Zpos n) by lia.
    rewrite Z.pow_add_r by lia. ring.
  - now apply shr_1_m.
Qed.

Lemma shr_record_of_loc_m (m : Z) (l : location) : shr_m (shr_record_of_loc m l) = m.
Proof. destruct l as [| []]; reflexivity. Qed.

(** truncation to the exponent of the format *)
Lemma shr_fexp_spec (m e : Z) (l : location) :
  0 <= m ->
  snd (shr_fexp Float.prec Float.emax m e l) = Z.max e (fexp (Zdigits2 m + e)) /\
  shr_m (fst (shr_fexp Float.prec Float.emax m e l)) =
    m / 2 ^ (Z.max e (fexp (Zdigits2 m + e)) - e).
Proof.
  intros Hm. unfold shr_fexp, shr.
  destruct (fexp (Zdigits2 m + e) - e) as [| n | n] eqn:E; cbn [fst snd].
  - rewrite shr_record_of_loc_m. replace (Z.max e (fexp (Zdigits2 m + e))) with e by lia.
    rewrite Z.sub_diag. cbn. now rewrite Z.div_1_r.
  - rewrite iter_shr_m by now rewrite shr_record_of_loc_m.
    rewrite shr_record_of_loc_m.
    replace (Z.max e (fexp (Zdigits2 m + e))) with (e + Zpos n) by lia.
    split; [reflexivity |]. do 2 f_equal. lia.
  - rewrite shr_record_of_loc_m. replace (Z.max e (fexp (Zdigits2 m + e))) with e by lia.
    rewrite Z.sub_diag. cbn. now rewrite Z.div_1_r.
Qed.

Lemma round_nearest_even_ge (m : Z) (l : location) : m <= round_nearest_even m l.
Proof. destruct l as [| []]; cbn; try destruct (Z.even m); lia. Qed.

Lemma round_nearest_even_le (m : Z) (l : location) : round_nearest_even m l <= m + 1.
Proof. destruct l as [| []]; cbn; try destruct (Z.even m); lia. Qed.

Lemma pow2_pos (e : Z) : 0 <= e -> 0 < 2 ^ e.
Proof. intros H. now apply Z.pow_pos_nonneg. Qed.

Lemma pow2_split (a b : Z) : 0 <= a -> 0 <= b -> 2 ^ (a + b) = 2 ^ a * 2 ^ b.
Proof. intros. now apply Z.pow_add_r. Qed.

(** truncation keeps a value of 1000 or more at 1000 or more: below the
    exponent 3 the float 1000 is on the grid, above it every float of the
    format is larger *)
Lemma trunc_keeps_1000 (m e : Z) (l : location) :
  0 < m -> -1074 <= e -> 1000 * 2 ^ 1074 <= m * 2 ^ (e + 1074) ->
  -1074 <= snd (shr_fexp Float.prec Float.emax m e l) /\
  1000 * 2 ^ 1074 <=
    shr_m (fst (shr_fexp Float.prec Float.emax m e l)) *
    2 ^ (snd (shr_fexp Float.prec Float.emax m e l) + 1074).
Proof.
  intros Hm He H. destruct (shr_fexp_spec m e l ltac:(lia)) as [-> ->].
  set (e' := Z.max e (fexp (Zdigits2 m + e))).
  assert (Hee : e <= e') by (unfold e'; lia). split; [lia |].
  destruct (Z.eq_dec e' e) as [-> | Hne].
  { rewrite Z.sub_diag. change (2 ^ 0) with 1. now rewrite Z.div_1_r. }
  assert (He' : e' = fexp (Zdigits2 m + e)) by (unfold e' in *; lia).
  set (n := e' - e). assert (Hn : 0 < n) by (unfold n; lia).
  assert (HA : 0 < 2 ^ (e + 1074)) by (apply pow2_pos; lia).
  assert (HN : 0 < 2 ^ n) by (apply pow2_pos; lia).
  destruct (Z_le_gt_dec e' 3) as [Hle | Hgt].
  - assert (E1 : 1000 * 2 ^ 1074 = 125 * 2 ^ (3 - e') * 2 ^ n * 2 ^ (e + 1074)).
    { rewrite <- !Z.mul_assoc, <- !pow2_split by lia.
      replace (3 - e' + (n + (e + 1074))) with (3 + 1074) by (unfold n; lia).
      rewrite pow2_split by lia. change (2 ^ 3) with 8. lia. }
    assert (E2 : 1000 * 2 ^ 1074 = 125 * 2 ^ (3 - e') * 2 ^ (e' + 1074)).
    { rewrite <- !Z.mul_assoc, <- !pow2_split by lia.
      replace (3 - e' + (e' + 1074)) with (3 + 1074) by lia.
      rewrite pow2_split by lia. change (2 ^ 3) with 8. lia. }
    rewrite E1 in H. apply Z.mul_le_mono_pos_r in H; [| exact HA].
    rewrite E2. apply Z.mul_le_mono_nonneg_r; [apply Z.lt_le_incl, pow2_pos; lia |].
    apply Z.div_le_lower_bound; [exact HN |]. rewrite Z.mul_comm. exact H.
  - destruct m as [| p | p]; try lia. cbn [Zdigits2] in He'.
    rewrite fexp_eq in He'.
    pose proof (digits2_pos_bounds p) as [Hlo _].
    set (d := Zpos (digits2_pos p)) in *.
    assert (Hd : n = d - 53) by (unfold n; lia).
    assert (E1 : 2 ^ (d - 1) = 2 ^ n * 2 ^ 52).
    { rewrite <- pow2_split by lia. f_equal. lia. }
    assert (Hq : 2 ^ 52 <= Zpos p / 2 ^ n).
    { apply Z.div_le_lower_bound; [exact HN |]. now rewrite <- E1. }
    assert (E2 : 2 ^ (e' + 1074) = 2 ^ (e' - 4) * (2 ^ 4 * 2 ^ 1074)).
    { rewrite <- !pow2_split by lia. f_equal. lia. }
    rewrite E2.
    assert (HB : 1 <= 2 ^ (e' - 4)) by (pose proof (pow2_pos (e' - 4) ltac:(lia)); lia).
    assert (HK : 0 < 2 ^ 1074) by (apply pow2_pos; lia).
    change (2 ^ 4) with 16. change (2 ^ 52) with 4503599627370496 in Hq.
    remember (2 ^ 1074) as K. remember (2 ^ (e' - 4)) as B.
    remember (Zpos p / 2 ^ n) as q. clear - Hq HB HK.
    assert (HQB : 4503599627370496 <= q * B) by nia.
    replace (q * (B * (16 * K))) with (q * B * 16 * K) by ring.
    remember (q * B) as QB. clear - HQB HK. nia.
Qed.

Lemma round_aux_keeps_1000 (m e : Z) (l : location) :
  0 < m -> -1074 <= e -> 1000 * 2 ^ 1074 <= m * 2 ^ (e + 1074) ->
  above_1000 (binary_round_aux Float.prec Float.emax false m e l).
Proof.
  intros Hm He H. unfold binary_round_aux.
  pose proof (trunc_keeps_1000 m e l Hm He H) as [He1 Hv1].
  destruct (shr_fexp Float.prec Float.emax m e l) as [mrs' e'] eqn:E1. cbn [fst snd] in *.
  set (mr := round_nearest_even (shr_m mrs') (loc_of_shr_record mrs')).
  assert (HT : 0 < 1000 * 2 ^ 1074) by (pose proof (pow2_pos 1074 ltac:(lia)); lia).
  assert (HA : 0 < 2 ^ (e' + 1074)) by (apply pow2_pos; lia).
  assert (Hm' : 0 < shr_m mrs').
  { destruct (Z_lt_le_dec 0 (shr_m mrs')) as [| Hle]; [assumption |].
    assert (shr_m mrs' * 2 ^ (e' + 1074) <= 0) by (apply Z.mul_nonpos_nonneg; lia). lia. }
  assert (Hmr : shr_m mrs' <= mr) by apply round_nearest_even_ge.
  assert (Hv : 1000 * 2 ^ 1074 <= mr * 2 ^ (e' + 1074)).
  { etransitivity; [exact Hv1 |]. apply Z.mul_le_mono_nonneg_r; lia. }
  pose proof (trunc_keeps_1000 mr e' loc_Exact ltac:(lia) He1 Hv) as [He2 Hv2].
  destruct (shr_fexp Float.prec Float.emax mr e' loc_Exact) as [mrs'' e''] eqn:E2.
  cbn [fst snd] in *.
  assert (HB : 0 < 2 ^ (e'' + 1074)) by (apply pow2_pos; lia).
  destruct (shr_m mrs'') as [| p | p].
  - lia.
  - destruct (e'' <=? Float.emax - Float.prec); [right | now left]. eauto.
  - assert (Zneg p * 2 ^ (e'' + 1074) <= 0) by (apply Z.mul_nonpos_nonneg; lia). lia.
Qed.

Lemma round_aux_nonneg (m e : Z) (l : location) :
  0 <= m ->
  binary_round_aux Float.prec Float.emax false m e l = S754_infinity false \/
  nonneg_float (binary_round_aux Float.prec Float.emax false m e l).
Proof.
  intros Hm. unfold binary_round_aux.
  pose proof (shr_fexp_spec m e l Hm) as [He1 Hm1].
  destruct (shr_fexp Float.prec Float.emax m e l) as [mrs' e'] eqn:E1. cbn [fst snd] in *.
  set (mr := round_nearest_even (shr_m mrs') (loc_of_shr_record mrs')).
  assert (Hm' : 0 <= shr_m mrs').
  { rewrite Hm1. apply Z.div_pos; [exact Hm |]. apply pow2_pos. lia. }
  assert (Hmr : 0 <= mr) by (pose proof (round_nearest_even_ge (shr_m mrs') (loc_of_shr_record mrs')); unfold mr; lia).
  pose proof (shr_fexp_spec mr e' loc_Exact Hmr) as [He2 Hm2].
  destruct (shr_fexp Float.prec Float.emax mr e' loc_Exact) as [mrs'' e''] eqn:E2.
  cbn [fst snd] in *.
  assert (He'' : -1074 <= e'') by (pose proof (fexp_ge (Zdigits2 mr + e')); lia).
  assert (Hm'' : 0 <= shr_m mrs'').
  { rewrite Hm2. apply Z.div_pos; [exact Hmr |]. apply pow2_pos. lia. }
  destruct (shr_m mrs'') as [| p | p].
  - right. now left.
  - destruct (e'' <=? Float.emax - Float.prec); [right | now left]. right. eauto.
  - lia.
Qed.

Lemma shl_align_spec (mx : positive) (ex ex' : Z) :
  snd (shl_align mx ex ex') = Z.min ex ex' /\
  Zpos (fst (shl_align mx ex ex')) = Zpos mx * 2 ^ (ex - Z.min ex ex').
Proof.
  unfold shl_align. destruct (ex' - ex) as [| d | d] eqn:E; cbn [fst snd].
  - replace (Z.min ex ex') with ex by lia. rewrite Z.sub_diag. change (2 ^ 0) with 1. lia.
  - replace (Z.min ex ex') with ex by lia. rewrite Z.sub_diag. change (2 ^ 0) with 1. lia.
  - replace (Z.min ex ex') with ex' by lia. split; [reflexivity |].
    change (Pos.iter xO mx d) with (shift_pos d mx).
    rewrite shift_pos_correct, Z.pow_pos_fold. replace (ex - ex') with (Zpos d) by lia. ring.
Qed.

Lemma round_keeps_1000 (m : positive) (e : Z) :
  -1074 <= e -> 1000 * 2 ^ 1074 <= Zpos m * 2 ^ (e + 1074) ->
  above_1000 (binary_round Float.prec Float.emax false m e).
Proof.
  intros He H. unfold binary_round.
  pose proof (shl_align_spec m e (fexp (Zpos (digits2_pos m) + e))) as [He1 Hm1].
  pose proof (fexp_ge (Zpos (digits2_pos m) + e)) as Hf.
  destruct (shl_align m e (fexp (Zpos (digits2_pos m) + e))) as [mz ez]. cbn [fst snd] in *.
  apply round_aux_keeps_1000; [lia | lia |].
  rewrite Hm1, <- Z.mul_assoc, <- pow2_split by lia.
  replace (e - Z.min e (fexp (Zpos (digits2_pos m) + e)) + (ez + 1074)) with (e + 1074) by lia.
  exact H.
Qed.

(** adding to a float of 1000 or more a float that is not negative *)
Lemma add_keeps_1000 (mx my : positive) (ex ey : Z) :
  -1074 <= ex -> -1074 <= ey -> 1000 * 2 ^ 1074 <= Zpos my * 2 ^ (ey + 1074) ->
  above_1000 (Float.add (S754_finite false mx ex) (S754_finite false my ey)).
Proof.
  intros Hex Hey H. unfold Float.add, SFadd. cbn [cond_Zopp].
  pose proof (shl_align_spec mx ex (Z.min ex ey)) as [_ Hx].
  pose proof (shl_align_spec my ey (Z.min ex ey)) as [_ Hy].
  replace (Z.min ex (Z.min ex ey)) with (Z.min ex ey) in Hx by lia.
  replace (Z.min ey (Z.min ex ey)) with (Z.min ex ey) in Hy by lia.
  set (ez := Z.min ex ey) in *.
  change (Zpos (fst (shl_align mx ex ez)) + Zpos (fst (shl_align my ey ez)))
    with (Zpos (fst (shl_align mx ex ez) + fst (shl_align my ey ez))).
  cbn [binary_normalize]. apply round_keeps_1000; [unfold ez; lia |].
  rewrite Pos2Z.inj_add, Hx, Hy, Z.mul_add_distr_r.
  rewrite <- !Z.mul_assoc, <- !pow2_split by (unfold ez; lia).
  replace (ex - ez + (ez + 1074)) with (ex + 1074) by lia.
  replace (ey - ez + (ez + 1074)) with (ey + 1074) by lia.
  assert (0 <= Zpos mx * 2 ^ (ex + 1074)).
  { apply Z.mul_nonneg_nonneg; [lia |]. apply Z.lt_le_incl, pow2_pos. lia. }
  lia.
Qed.

Lemma add_1000 (x : Float.float) : nonneg_float x -> above_1000 (Float.add x f1000).
Proof.
  assert (H1000 : 1000 * 2 ^ 1074 <= 8796093022208000 * 2 ^ (-43 + 1074)).
  { change (-43 + 1074) with 1031. replace 1074 with (43 + 1031) by reflexivity.
    rewrite pow2_split by lia. change (2 ^ 43) with 8796093022208.
    pose proof (pow2_pos 1031 ltac:(lia)). lia. }
  intros [-> | (m & e & -> & He)].
  - right. exists 8796093022208000%positive, (-43). repeat split; [lia | exact H1000].
  - unfold f1000. apply add_keeps_1000; [exact He | lia | exact H1000].
Qed.


Lemma above_1000_at_least (t : Float.float) : above_1000 t -> at_least 1000 t.
Proof.
  intros [-> | (m & e & -> & He & H)]; [reflexivity |].
  split; [reflexivity |]. unfold Float.to_Q. destruct e as [| p | p].
  - unfold Qle. cbn [Qnum Qden inject_Z]. change (0 + 1074) with 1074 in H.
    pose proof (pow2_pos 1074 ltac:(lia)). change (2 ^ 0) with 1.
    remember (2 ^ 1074) as K. clear HeqK. nia.
  - unfold Qle. cbn [Qnum Qden inject_Z].
    rewrite pow2_split in H by lia.
    pose proof (pow2_pos 1074 ltac:(lia)). pose proof (pow2_pos (Zpos p) ltac:(lia)).
    remember (2 ^ 1074) as K. remember (2 ^ Zpos p) as B. clear HeqK HeqB. nia.
  - unfold Qle. cbn [Qnum Qden]. rewrite Pos2Z.inj_pow.
    assert (E : 2 ^ 1074 = 2 ^ Zpos p * 2 ^ (Zneg p + 1074)).
    { rewrite <- pow2_split by lia. f_equal. lia. }
    rewrite E in H.
    pose proof (pow2_pos (Zneg p + 1074) ltac:(lia)). pose proof (pow2_pos (Zpos p) ltac:(lia)).
    remember (2 ^ (Zneg p + 1074)) as K. remember (2 ^ Zpos p) as B. clear HeqK HeqB E.
    nia.
Qed.

End Rounding.

(** ** No timestamp of a real stream overflows *)

Section NoOverflow.
Local Open Scope Z_scope.

(** truncation keeps a value below a power of two below it, and the
    exponent with it *)
Lemma trunc_below (m e B : Z) (l : location) :
  0 <= m -> -1074 <= e <= B -> m * 2 ^ (e + 1074) < 2 ^ (B + 1074) ->
  -1074 <= snd (shr_fexp Float.prec Float.emax m e l) <= B /\
  0 <= shr_m (fst (shr_fexp Float.prec Float.emax m e l)) /\
  shr_m (fst (shr_fexp Float.prec Float.emax m e l)) *
    2 ^ (snd (shr_fexp Float.prec Float.emax m e l) + 1074) < 2 ^ (B + 1074).
Proof.
  intros Hm He H. destruct (shr_fexp_spec m e l Hm) as [-> ->].
  set (e' := Z.max e (fexp (Zdigits2 m + e))).
  assert (Hee : e <= e') by (unfold e'; lia).
  assert (HN : 0 < 2 ^ (e' - e)) by (apply pow2_pos; lia).
  assert (HA : 0 < 2 ^ (e + 1074)) by (apply pow2_pos; lia).
  assert (Hq : 0 <= m / 2 ^ (e' - e)) by (apply Z.div_pos; lia).
  assert (Hv : m / 2 ^ (e' - e) * 2 ^ (e' + 1074) <= m * 2 ^ (e + 1074)).
  { replace (e' + 1074) with ((e' - e) + (e + 1074)) by lia.
    rewrite pow2_split, Z.mul_assoc by lia.
    apply Z.mul_le_mono_nonneg_r; [lia |]. rewrite Z.mul_comm. now apply Z.mul_div_le. }
  split; [split; [lia |] | split; [exact Hq | lia]].
  destruct (Z.eq_dec e' e) as [-> | Hne]; [lia |].
  assert (He' : e' = fexp (Zdigits2 m + e)) by (unfold e' in *; lia).
  rewrite fexp_eq in He'. destruct m as [| p | p]; [cbn in He'; lia | | lia].
  cbn [Zdigits2] in He'. pose proof (digits2_pos_bounds p) as [Hlo _].
  set (d := Zpos (digits2_pos p)) in *.
  assert (Hd : 1 <= d) by (unfold d; lia).
  assert (Hp : 2 ^ (d - 1 + (e + 1074)) < 2 ^ (B + 1074)).
  { eapply Z.le_lt_trans; [| exact H]. rewrite pow2_split by lia.
    apply Z.mul_le_mono_nonneg_r; lia. }
  apply Z.pow_lt_mono_r_iff in Hp; lia.
Qed.

(** a quotient below [2^95] rounds to a float, not to an infinity *)
Lemma round_aux_finite (sx : bool) (m e : Z) (l : location) :
  0 <= m -> -1074 <= e <= 95 -> m * 2 ^ (e + 1074) < 2 ^ (95 + 1074) ->
  forall s, binary_round_aux Float.prec Float.emax sx m e l <> S754_infinity s.
Proof.
  intros Hm He H s. unfold binary_round_aux.
  pose proof (trunc_below m e 95 l Hm He H) as (He1 & Hm1 & Hv1).
  destruct (shr_fexp Float.prec Float.emax m e l) as [mrs' e'] eqn:E1. cbn [fst snd] in *.
  set (mr := round_nearest_even (shr_m mrs') (loc_of_shr_record mrs')).
  pose proof (round_nearest_even_ge (shr_m mrs') (loc_of_shr_record mrs')) as Hge.
  pose proof (round_nearest_even_le (shr_m mrs') (loc_of_shr_record mrs')) as Hle.
  fold mr in Hge, Hle.
  assert (HA : 0 < 2 ^ (e' + 1074)) by (apply pow2_pos; lia).
  assert (Hv : mr * 2 ^ (e' + 1074) < 2 ^ (96 + 1074)).
  { assert (E : 2 ^ (95 + 1074) = 2 ^ (95 - e') * 2 ^ (e' + 1074)).
    { rewrite <- pow2_split by lia. f_equal. lia. }
    rewrite E in Hv1. apply Z.mul_lt_mono_pos_r in Hv1; [| exact HA].
    replace (96 + 1074) with (1 + (95 + 1074)) by lia.
    rewrite (pow2_split 1 (95 + 1074)), E by lia.
    change (2 ^ 1) with 2. pose proof (pow2_pos (95 - e') ltac:(lia)).
    remember (2 ^ (95 - e')) as C. remember (2 ^ (e' + 1074)) as A.
    clear - Hv1 Hle HA H0. nia. }
  pose proof (trunc_below mr e' 96 loc_Exact ltac:(lia) ltac:(lia) Hv) as (He2 & Hm2 & Hv2).
  destruct (shr_fexp Float.prec Float.emax mr e' loc_Exact) as [mrs'' e''] eqn:E2.
  cbn [fst snd] in *.
  destruct (shr_m mrs'') as [| p | p]; try discriminate.
  destruct (Z.leb_spec e'' (Float.emax - Float.prec)) as [| Hgt]; [discriminate |].
  unfold Float.emax, Float.prec in Hgt. lia.
Qed.

Lemma round_ratio_finite (sx : bool) (n d : positive) :
  Zpos n < 2 ^ 95 -> forall s, Float.round_ratio sx n d <> S754_infinity s.
Proof.
  intros Hn. unfold Float.round_ratio, SFdiv_core_binary.
  set (e' := Z.min _ _).
  assert (He' : -1074 <= e' <= 0).
  { unfold e'. pose proof (fexp_ge (Zdigits2 (Zpos n) + 0 - (Zdigits2 (Zpos d) + 0))). lia. }
  set (m' := match 0 - 0 - e' with Zpos _ => _ | Z0 => _ | Zneg _ => _ end).
  assert (Hm' : m' = Zpos n * 2 ^ (- e')).
  { unfold m'. destruct (0 - 0 - e') as [| k | k] eqn:E; try lia.
    - replace (- e') with 0 by lia. change (2 ^ 0) with 1. lia.
    - rewrite Z.shiftl_mul_pow2 by lia. do 2 f_equal. lia. }
  pose proof (Z_div_mod m' (Zpos d) ltac:(lia)) as H.
  destruct (Z.div_eucl m' (Zpos d)) as [q r]. destruct H as [H1 H2].
  assert (HP : 0 < 2 ^ (- e')) by (apply pow2_pos; lia).
  assert (Hq : 0 <= q <= m') by nia.
  apply round_aux_finite; [lia | lia |].
  apply Z.le_lt_trans with (m' * 2 ^ (e' + 1074)).
  - apply Z.mul_le_mono_nonneg_r; [apply Z.lt_le_incl, pow2_pos |]; lia.
  - rewrite Hm', <- Z.mul_assoc, <- pow2_split by lia.
    replace (- e' + (e' + 1074)) with 1074 by lia. rewrite pow2_split by lia.
    apply Z.mul_lt_mono_pos_r; [apply pow2_pos; lia | exact Hn].
Qed.

Lemma true_divide_some (n : Z) (d : positive) :
  Z.abs n < 2 ^ 95 -> exists x, Float.true_divide n d = Some x.
Proof.
  intros H. unfold Float.true_divide. destruct n as [| p | p]; [eauto | |].
  - pose proof (round_ratio_finite false p d H) as Hf.
    destruct (Float.round_ratio false p d) as [| s | |]; eauto. now destruct (Hf s).
  - pose proof (round_ratio_finite true p d H) as Hf.
    destruct (Float.round_ratio true p d) as [| s | |]; eauto. now destruct (Hf s).
Qed.

Lemma Qred_num_le (q : Q) : Z.abs (Qnum (Qred q)) <= Z.abs (Qnum q).
Proof.
  destruct q as [n d]. unfold Qred.
  pose proof (Z.ggcd_correct_divisors n (Zpos d)) as H.
  pose proof (Z.ggcd_gcd n (Zpos d)) as Hg.
  pose proof (Z.gcd_nonneg n (Zpos d)) as Hnn.
  destruct (Z.ggcd n (Zpos d)) as [g [n' d']]. cbn [fst snd Qnum] in *.
  destruct H as [Hn Hd]. subst g.
  assert (Z.gcd n (Zpos d) <> 0) by (intros E; rewrite E in Hd; lia).
  remember (Z.gcd n (Zpos d)) as g. clear Heqg. nia.
Qed.

Lemma fraction_mul_bound (p : Z) (tb : Q) :
  int64 p -> int32_ratio tb -> Z.abs (Qnum (Float.fraction_mul p tb)) < 2 ^ 95.
Proof.
  intros Hp [Hn _]. unfold Float.fraction_mul.
  eapply Z.le_lt_trans; [apply Qred_num_le |]. cbn [Qnum Qmult inject_Z].
  unfold int64 in Hp. change (2 ^ 63) with 9223372036854775808 in Hp.
  change (2 ^ 31) with 2147483648 in Hn.
  change (2 ^ 95) with 39614081257132168796771975168.
  remember (Qnum tb) as t. clear - Hp Hn. nia.
Qed.

(** the timestamps of a stream of 64-bit ticks and a 32-bit time base all
    convert to floats *)
Lemma no_overflow (tb : Q) (fr : list frame) :
  int32_ratio tb -> Forall (fun f => forall p, pts f = Some p -> int64 p) fr ->
  overflows tb fr = false.
Proof.
  intros Htb. induction fr as [| f rest IH]; [reflexivity |].
  intros [Hf Hrest]%Forall_cons. cbn [overflows].
  destruct (pts f) as [p |]; [| now apply IH].
  destruct (true_divide_some (Qnum (Float.fraction_mul p tb)) (Qden (Float.fraction_mul p tb)))
    as [x Hx]; [apply fraction_mul_bound; auto |].
  unfold Float.of_fraction. rewrite Hx. now apply IH.
Qed.

End NoOverflow.

(** ** The claims *)

Section Outcomes.
Variable float_repr : Float.float -> string.


Lemma lookup_ensure_dir (out p : string) (w : world) :
  p <> out -> fs (ensure_dir out w) !! p = fs w !! p.
Proof.
  intros H. unfold ensure_dir. destruct (bool_decide _); [reflexivity |].
  cbn. now apply lookup_insert_ne.
Qed.



(** C3: a decoded frame without a timestamp issues no command at all - no
    image, no row, no line on the console - and the frames after it are
    numbered as if it had been written; the images saved and the rows
    appended come from the same frames, under the same file names. *)
Theorem C3_frame_without_timestamp_is_skipped (out : string) (tb : Q) (off : Float.float)
    (i : nat) (pre post : list frame) (pic : picture) (w : world) :
  overflows tb pre = false ->
  let loop := decode_loop out (csv_path out) tb off in
  let fr := (pre ++ Frame None pic :: post)%list in
  trace (loop i fr) w = (trace (loop i pre) w ++ trace (loop (S (i + length pre)) post) w)%list /\
  saved (trace (loop i fr) w) =
    map (fun sh => (Path.join out (frame_filename (index sh)), shot_picture sh))
      (written tb off i fr) /\
  appended (csv_path out) (trace (loop i fr) w) =
    map (fun sh => Csv.line [frame_filename (index sh); Float.format_6f (stamp sh)])
      (written tb off i fr).
Proof.
  intros Hov loop fr. unfold loop, fr. rewrite !trace_decode_loop.
  split; [| split].
  - rewrite written_app by exact Hov. cbn [written pts].
    unfold loop_cmds. now rewrite map_app, concat_app.
  - apply saved_loop_cmds.
  - apply appended_loop_cmds.
Qed.



(** C10: an error met while reading the sidecar file escapes, and ends
    the run before the CSV file is opened or an image saved, exactly when
    it is not a [ValueError]; a [ValueError] of any origin - the float
    parse or the decoding of the file's bytes - gives the offset 0.0 and
    the warning. *)
Theorem C10_only_value_errors_are_downgraded (w : world) (v out : string) (c : container)
    (s : stream) (more : list stream) (e : exn) :
  av_open w v = inr c -> video c = s :: more ->
  is_Some (fs (ensure_dir out w) !! sidecar_path v) ->
  fst (exec (ReadText (sidecar_path v)) (ensure_dir out w)) = inl e ->
  let r := run (extract_frames float_repr v out) w in
  if is_ValueError e then
    start_offset (ensure_dir out w) v = inr (S754_zero false) /\
    fst r = (if overflows (time_base s) (frames s) then inl overflow_error else inr tt) /\
    In "Warning: Could not parse video_start_time.txt" (stdout (snd r))
  else
    fst r = inl e /\
    fs (snd r) = fs (ensure_dir out w) /\
    saved (trace (extract_frames float_repr v out) w) = [] /\
    appended (csv_path out) (trace (extract_frames float_repr v out) w) = [] /\
    ~ In (OpenWrite (csv_path out)) (trace (extract_frames float_repr v out) w).
Proof.
  intros Hopen Hvideo [n Hn] He r.
  assert (Hso : start_offset (ensure_dir out w) v =
                if is_ValueError e then inr (S754_zero false) else inl e).
  { unfold start_offset. now rewrite Hn, He. }
  destruct (is_ValueError e) eqn:Hve.
  - split; [exact Hso | split].
    + unfold r. exact (result_success float_repr w v out c s more _ Hopen Hvideo Hso).
    + unfold r. rewrite (stdout_success float_repr w v out c s more _ Hopen Hvideo Hso).
      apply in_or_app. right. apply in_or_app. left.
      unfold start_offset_notice. rewrite Hn, He, Hve. now left.
  - assert (Hc : main_cmds float_repr w v out =
                 (dir_cmds out w ++ AvOpen v :: offset_cmds float_repr (ensure_dir out w) v)%list).
    { unfold main_cmds. rewrite Hopen, Hvideo, Hso. now rewrite app_nil_r. }
    assert (Hneutral := offset_cmds_neutral float_repr (ensure_dir out w) v).
    split; [| split; [| split; [| split]]].
    + unfold r. rewrite result_extract_frames. unfold main_result.
      now rewrite Hopen, Hvideo, Hso.
    + unfold r. rewrite world_extract_frames, Hc, replay_app, replay_dir_cmds, replay_cons.
      cbn [exec snd]. now apply fs_replay_neutral.
    + rewrite trace_extract_frames, Hc, saved_app, saved_dir_cmds. cbn [app].
      change (saved (AvOpen v :: ?l)) with (saved l). now apply saved_neutral.
    + rewrite trace_extract_frames, Hc, appended_app, appended_dir_cmds. cbn [app].
      change (appended ?p (AvOpen v :: ?l)) with (appended p l). now apply appended_neutral.
    + rewrite trace_extract_frames, Hc. intros Hin.
      apply in_app_or in Hin as [Hin | [Hin | Hin]].
      * unfold dir_cmds in Hin. destruct (bool_decide _); cbn in Hin.
        -- destruct Hin as [? | []]; discriminate.
        -- destruct Hin as [? | [? | []]]; discriminate.
      * discriminate.
      * rewrite forallb_forall in Hneutral. apply Hneutral in Hin. discriminate.
Qed.

End Outcomes.

(** ** A run stopped half-way *)

Section Prefixes.
Variable float_repr : Float.float -> string.
Variable out : string.

















End Prefixes.

(** ** The files of a run stopped half-way *)

Section PrefixFiles.
Variable float_repr : Float.float -> string.
Variable out : string.



Lemma eqb_neq (p q : string) : negb (String.eqb q p) = true -> q <> p.
Proof. intros H E. subst q. now rewrite String.eqb_refl in H. Qed.














End PrefixFiles.

(** ** Interrupted runs and repeated runs *)

Section Reruns.
Variable float_repr : Float.float -> string.





End Reruns.

(** ** The timestamp of a row *)

Section RowTimestamps.
Variable float_repr : Float.float -> string.


End RowTimestamps.

(** ** Timestamps and the start offset *)

Section Offsets.
Local Open Scope Z_scope.

Lemma round_ratio_nonneg (n d : positive) :
  Float.round_ratio false n d = S754_infinity false \/
  nonneg_float (Float.round_ratio false n d).
Proof.
  unfold Float.round_ratio, SFdiv_core_binary.
  set (e' := Z.min _ _). set (m' := match 0 - 0 - e' with Zpos _ => _ | Z0 => _ | Zneg _ => _ end).
  assert (Hm' : 0 <= m').
  { unfold m'. destruct (0 - 0 - e'); try lia. apply Z.shiftl_nonneg. lia. }
  pose proof (Z_div_mod m' (Zpos d) ltac:(lia)) as H.
  destruct (Z.div_eucl m' (Zpos d)) as [q r]. apply round_aux_nonneg.
  destruct H as [H1 H2]. nia.
Qed.

Lemma of_fraction_nonneg (q : Q) (x : Float.float) :
  0 <= Qnum q -> Float.of_fraction q = Some x -> nonneg_float x.
Proof.
  unfold Float.of_fraction, Float.true_divide. intros Hq.
  destruct (Qnum q) as [| p | p]; [| | lia].
  - intros [= <-]. now left.
  - destruct (round_ratio_nonneg p (Qden q)) as [-> | H]; [discriminate |].
    destruct (Float.round_ratio false p (Qden q)); intros [= <-]; exact H.
Qed.

Lemma fraction_mul_nonneg (p : Z) (tb : Q) :
  0 <= p * Qnum tb -> 0 <= Qnum (Float.fraction_mul p tb).
Proof.
  intros H. unfold Float.fraction_mul.
  pose proof (Qred_correct (inject_Z p * tb)) as E. unfold Qeq in E.
  cbn [Qnum Qden Qmult inject_Z] in E.
  set (a := Qnum (Qred (inject_Z p * tb))) in *.
  set (b := Zpos (Qden (Qred (inject_Z p * tb)))) in *.
  assert (0 < b) by (unfold b; lia).
  assert (0 < Zpos (1 * Qden tb)) by lia.
  remember (Zpos (1 * Qden tb)) as d. remember (p * Qnum tb) as k. clear - E H H0 H1. nia.
Qed.

Lemma round_half_even_ge (a : Z) (b : positive) : a / Zpos b <= Float.round_half_even a b.
Proof.
  unfold Float.round_half_even. destruct (2 * (a mod Zpos b) ?= Zpos b); [| lia ..].
  destruct (Z.even _); lia.
Qed.

(** the text written for a finite float of 1000 or more is that of a
    count of millionths of at least [10^9], without a sign *)
Lemma render_above_1000 (m : positive) (e : Z) :
  above_1000 (S754_finite false m e) ->
  Float.format_6f (S754_finite false m e) = Float.fixed6 (Float.micros m e) /\
  1000000000 <= Float.micros m e.
Proof.
  intros [H | (m' & e' & [= <- <-] & He & H)]; [discriminate |].
  split; [reflexivity |]. unfold Float.micros. destruct e as [| p | p].
  - change (0 + 1074) with 1074 in H. change (2 ^ 0) with 1.
    pose proof (pow2_pos 1074 ltac:(lia)). remember (2 ^ 1074) as K. clear HeqK. nia.
  - rewrite pow2_split in H by lia.
    pose proof (pow2_pos 1074 ltac:(lia)). pose proof (pow2_pos (Zpos p) ltac:(lia)).
    remember (2 ^ 1074) as K. remember (2 ^ Zpos p) as B. clear HeqK HeqB. nia.
  - etransitivity; [| apply round_half_even_ge]. rewrite Pos2Z.inj_pow.
    assert (E : 2 ^ 1074 = 2 ^ Zpos p * 2 ^ (Zneg p + 1074)).
    { rewrite <- pow2_split by lia. f_equal. lia. }
    rewrite E in H.
    pose proof (pow2_pos (Zneg p + 1074) ltac:(lia)). pose proof (pow2_pos (Zpos p) ltac:(lia)).
    apply Z.div_le_lower_bound; [lia |].
    remember (2 ^ (Zneg p + 1074)) as K. remember (2 ^ Zpos p) as B. clear HeqK HeqB E.
    nia.
Qed.

Variable float_repr : Float.float -> string.



End Offsets.

(** ** The console of a run *)

Section Console.
Variable float_repr : Float.float -> string.




End Console.

(** ** File names *)

Section FileNames.
Import Text.

Lemma zfill_length_ge (w : nat) (s : string) : (w <= String.length (Decimal.zfill w s))%nat.
Proof. unfold Decimal.zfill. rewrite length_app, length_replicate_char. lia. Qed.

(** X2 (line 78): the name of a frame file is [frame_], the decimal digits of
    the index and [.jpg]; there are six digits at least, exactly six below
    a million, and they read back as the index, so that two frames never
    share a name, whatever their indices. *)
Theorem frame_filename_reads_back (i : nat) :
  (exists d,
     frame_filename i = "frame_" ++ d ++ ".jpg" /\
     forall_chars is_digit d = true /\
     Decimal.value d = N.of_nat i /\
     (6 <= String.length d)%nat /\
     ((N.of_nat i < 1000000)%N -> String.length d = 6%nat)) /\
  (forall j, frame_filename i = frame_filename j -> i = j).
Proof.
  split.
  - exists (Decimal.format_06d i). split; [reflexivity |].
    split; [apply format_06d_digits |]. split; [apply format_06d_value |].
    split; [apply zfill_length_ge |]. intros Hi. apply zfill_length.
    apply (str_N_length _ 5). exact Hi.
  - intros j. apply frame_filename_inj.
Qed.

End FileNames.

(** ** Reading the CSV file back *)

Section CsvBack.
Import Text.

Lemma split_go_plain (c : ascii) (cur s : string) :
  contains c s = false -> split_go c cur s = [cur ++ s].
Proof.
  revert cur. induction s as [| a s IH]; intros cur H.
  - now rewrite append_nil_r.
  - cbn [contains] in H. cbn [split_go]. destruct (Ascii.eqb a c); [discriminate |].
    rewrite IH by exact H. now rewrite append_assoc.
Qed.

Lemma split_go_field (c : ascii) (cur s rest : string) :
  contains c s = false ->
  split_go c cur (s ++ String c rest) = (cur ++ s) :: split_go c "" rest.
Proof.
  revert cur. induction s as [| a s IH]; intros cur H.
  - rewrite append_nil_r. change ("" ++ String c rest) with (String c rest).
    cbn [split_go]. now rewrite Ascii.eqb_refl.
  - cbn [contains] in H.
    change (String a s ++ String c rest) with (String a (s ++ String c rest)).
    cbn [split_go]. destruct (Ascii.eqb a c); [discriminate |].
    rewrite IH by exact H. now rewrite append_assoc.
Qed.

Lemma split_two (a b : string) :
  contains "," a = false -> contains "," b = false ->
  split_on "," (a ++ "," ++ b) = [a; b].
Proof.
  intros Ha Hb. unfold split_on. change ("," ++ b) with (String "," b).
  rewrite split_go_field by exact Ha. now rewrite split_go_plain by exact Hb.
Qed.

(** X3 (lines 63-65 and 84-85): no field the routine writes is ever quoted -
    a file name and a timestamp hold no comma, quote or line end - so
    that the lines of the CSV file, split at their commas, give back the
    header and, frame by frame, the file name and the timestamp text. *)
Theorem csv_reads_back (ss : list shot) :
  Forall (fun sh =>
            Csv.needs_quote (frame_filename (index sh)) = false /\
            Csv.needs_quote (Float.format_6f (stamp sh)) = false) ss /\
  map (split_on ",") (splitlines (csv_text ss)) =
  ["filename"; "timestamp"]
  :: map (fun sh => [frame_filename (index sh); Float.format_6f (stamp sh)]) ss.
Proof.
  split.
  - apply List.Forall_forall. intros sh _.
    split; apply needs_quote_plain; [apply frame_filename_plain | apply format_6f_plain].
  - rewrite splitlines_csv_text. cbn [map]. f_equal. rewrite map_map.
    apply map_ext. intros sh. apply split_two.
    + apply (contains_forall "," Csv.plain); [reflexivity | apply frame_filename_plain].
    + apply (contains_forall "," Csv.plain); [reflexivity | apply format_6f_plain].
Qed.

End CsvBack.

(** ** What a run leaves alone *)

Section Untouched.
Variable float_repr : Float.float -> string.







End Untouched.

(** ** The errors that escape *)

Section Escapes.
Variable float_repr : Float.float -> string.


End Escapes.

(** ** Where the sidecar file is looked for *)

Section SidecarPath.
Import Text.

Lemma rstrip_by_all (p : ascii -> bool) (t : string) :
  forall_chars p t = true -> rstrip_by p t = "".
Proof.
  induction t as [| a t IH]; [reflexivity |]. cbn [forall_chars rstrip_by].
  intros [Ha Ht]%andb_true_iff. now rewrite IH, Ha.
Qed.

Lemma rstrip_by_app_all (p : ascii -> bool) (s t : string) :
  forall_chars p t = true -> rstrip_by p (s ++ t) = rstrip_by p s.
Proof.
  intros Ht. induction s as [| a s IH]; [now apply rstrip_by_all |].
  change (String a s ++ t) with (String a (s ++ t)). cbn [rstrip_by]. now rewrite IH.
Qed.

Lemma rstrip_by_last (p : ascii -> bool) (s : string) (a : ascii) :
  last_char s = Some a -> p a = false -> rstrip_by p s = s.
Proof.
  intros Hl Ha. induction s as [| b s IH]; [reflexivity |].
  destruct s as [| c s].
  - injection Hl as ->. cbn. now rewrite Ha.
  - change (last_char (String b (String c s))) with (last_char (String c s)) in Hl.
    specialize (IH Hl). remember (String c s) as r eqn:Er. cbn [rstrip_by]. rewrite IH.
    now subst r.
Qed.

Lemma forall_chars_last (p : ascii -> bool) (s : string) (a : ascii) :
  last_char s = Some a -> p a = false -> forall_chars p s = false.
Proof.
  intros Hl Ha. induction s as [| b s IH]; [discriminate |].
  destruct s as [| c s].
  - injection Hl as ->. cbn. now rewrite Ha.
  - change (last_char (String b (String c s))) with (last_char (String c s)) in Hl.
    specialize (IH Hl). remember (String c s) as r eqn:Er. cbn [forall_chars].
    rewrite IH. apply andb_false_r.
Qed.

Lemma last_char_cons (a : ascii) (s : string) : last_char (String a s) <> None.
Proof.
  revert a. induction s as [| b s IH]; intros a; [discriminate |].
  change (last_char (String a (String b s))) with (last_char (String b s)). apply IH.
Qed.

Lemma head_no_slash (b : string) : contains slash b = false -> Path.head b = "".
Proof.
  destruct b as [| a r]; [reflexivity |]. cbn [contains Path.head].
  destruct (Ascii.eqb a slash); [discriminate |]. intros ->. reflexivity.
Qed.

Lemma contains_app_slash (x b : string) : contains slash (x ++ "/" ++ b) = true.
Proof.
  induction x as [| a x IH]; [reflexivity |].
  change (String a x ++ "/" ++ b) with (String a (x ++ "/" ++ b)). cbn [contains].
  rewrite IH. now destruct (Ascii.eqb a slash).
Qed.

Lemma head_app_slash (x b : string) :
  contains slash b = false -> Path.head (x ++ "/" ++ b) = x ++ "/".
Proof.
  intros Hb. induction x as [| a x IH].
  - change ("" ++ "/" ++ b) with (String "/" b). cbn [Path.head]. now rewrite Hb.
  - change (String a x ++ "/" ++ b) with (String a (x ++ "/" ++ b)). cbn [Path.head].
    now rewrite contains_app_slash, IH.
Qed.

(** the directory part of a path made by joining a directory and a file
    name *)
Lemma dirname_join (d b : string) :
  endswith slash d = false -> contains slash b = false ->
  Path.dirname (Path.join d b) = d.
Proof.
  intros Hd Hb. unfold Path.join. rewrite (startswith_no_slash b Hb), Hd, orb_false_r.
  destruct d as [| a d]; cbn [String.eqb].
  - change ("" ++ b) with b. unfold Path.dirname. now rewrite head_no_slash.
  - set (x := String a d) in *. unfold Path.dirname. rewrite head_app_slash by exact Hb.
    unfold endswith in Hd. destruct (last_char x) as [c |] eqn:Hl; [| now destruct (last_char_cons a d)].
    assert (Hx : forall_chars (fun a => Ascii.eqb a slash) (x ++ "/") = false).
    { rewrite forall_chars_app, (forall_chars_last _ x c Hl Hd). reflexivity. }
    rewrite Hx. assert (Hne : String.eqb (x ++ "/") "" = false) by (subst x; reflexivity).
    rewrite Hne. cbn [negb andb].
    rewrite rstrip_by_app_all by reflexivity. now apply (rstrip_by_last _ x c).
Qed.

(** X7 (lines 43-44): the start time is looked for in a file that is always
    named [video_start_time.txt], and for a video [b] in a directory [d] -
    a path [d/b] as [os.path.join] makes it from a directory without a
    trailing slash and a file name - that file is the one next to the
    video, [d/video_start_time.txt]. *)
Theorem sidecar_is_next_to_the_video (d b : string) :
  endswith slash d = false -> contains slash b = false ->
  Path.tail (sidecar_path (Path.join d b)) = "video_start_time.txt" /\
  sidecar_path (Path.join d b) = Path.join d "video_start_time.txt" /\
  Path.dirname (sidecar_path (Path.join d b)) = Path.dirname (Path.join d b).
Proof.
  intros Hd Hb. unfold sidecar_path. rewrite (dirname_join d b Hd Hb).
  split; [now apply tail_join |]. split; [reflexivity |].
  now rewrite (dirname_join d "video_start_time.txt" Hd).
Qed.

End SidecarPath.

(** ** Reading a written timestamp back *)

Section ReadBack.
Import Text.

Lemma lstrip_by_first (p : ascii -> bool) (a : ascii) (s : string) :
  p a = false -> lstrip_by p (String a s) = String a s.
Proof. intros Ha. cbn [lstrip_by]. now rewrite Ha. Qed.

Lemma rstrip_by_none (p : ascii -> bool) (s : string) :
  forall_chars (fun a => negb (p a)) s = true -> rstrip_by p s = s.
Proof.
  induction s as [| a s IH]; [reflexivity |]. cbn [forall_chars rstrip_by].
  intros [Ha Hs]%andb_true_iff. apply negb_true_iff in Ha. rewrite (IH Hs), Ha.
  now destruct s.
Qed.

Lemma strip_none (s : string) :
  forall_chars (fun a => negb (is_space a)) s = true -> strip s = s.
Proof.
  intros H. unfold strip. destruct s as [| a s]; [reflexivity |].
  rewrite lstrip_by_first, rstrip_by_none; [reflexivity | exact H |].
  cbn [forall_chars] in H. apply andb_true_iff in H as [Ha _]. now apply negb_true_iff.
Qed.

(** a line feed after a text without blanks is what [strip] removes *)
Lemma strip_line (s : string) :
  forall_chars (fun a => negb (is_space a)) s = true ->
  strip (s ++ String Csv.lf "") = s.
Proof.
  intros H. unfold strip. destruct s as [| a s]; [reflexivity |].
  change (String a s ++ String Csv.lf "") with (String a (s ++ String Csv.lf "")).
  rewrite lstrip_by_first.
  - change (String a (s ++ String Csv.lf "")) with (String a s ++ String Csv.lf "").
    rewrite rstrip_by_app_all by reflexivity. now apply rstrip_by_none.
  - cbn [forall_chars] in H. apply andb_true_iff in H as [Ha _]. now apply negb_true_iff.
Qed.

Lemma numeric_not_space (a : ascii) : numeric a = true -> negb (is_space a) = true.
Proof. destruct a as [[] [] [] [] [] [] [] []]; vm_compute; congruence. Qed.

Lemma numeric_not_underscore (a : ascii) : numeric a = true -> negb (Ascii.eqb a "_") = true.
Proof. destruct a as [[] [] [] [] [] [] [] []]; vm_compute; congruence. Qed.

Lemma digit_numeric (a : ascii) : is_digit a = true -> numeric a = true.
Proof. unfold numeric. now intros ->. Qed.

Lemma underscores_ok_none (prev : option ascii) (s : string) :
  forall_chars (fun a => negb (Ascii.eqb a "_")) s = true ->
  match prev with Some b => Ascii.eqb b "_" = false | None => True end ->
  Float.underscores_ok prev s = true.
Proof.
  revert prev. induction s as [| a s IH]; intros prev Hs Hp.
  - cbn. destruct prev as [b |]; [now rewrite Hp | reflexivity].
  - cbn [forall_chars] in Hs. apply andb_true_iff in Hs as [Ha Hs].
    apply negb_true_iff in Ha. cbn [Float.underscores_ok]. rewrite Ha.
    rewrite (IH (Some a) Hs Ha). destruct prev as [b |]; [now rewrite Hp | reflexivity].
Qed.

Lemma filter_chars_none (p : ascii -> bool) (s : string) :
  forall_chars p s = true -> filter_chars p s = s.
Proof.
  induction s as [| a s IH]; [reflexivity |]. cbn [forall_chars filter_chars].
  intros [Ha Hs]%andb_true_iff. now rewrite Ha, IH.
Qed.

Lemma take_sign_digit (a : ascii) (r : string) :
  is_digit a = true -> Float.take_sign (String a r) = (false, String a r).
Proof. destruct a as [[] [] [] [] [] [] [] []]; vm_compute; congruence. Qed.

Lemma span_digits_all (d : string) :
  forall_chars is_digit d = true -> Float.span_digits d = (d, "").
Proof.
  induction d as [| a d IH]; [reflexivity |]. cbn [forall_chars Float.span_digits].
  intros [Ha Hd]%andb_true_iff. now rewrite Ha, IH.
Qed.

Lemma value_go_shift (a : N) (s : string) :
  (Decimal.value_go a s = a * 10 ^ N.of_nat (String.length s) + Decimal.value_go 0 s)%N.
Proof.
  revert a. induction s as [| c s IH]; intros a.
  - cbn. lia.
  - cbn [Decimal.value_go String.length]. rewrite (IH (10 * a + _)%N), (IH (10 * 0 + _)%N).
    rewrite Nat2N.inj_succ, N.pow_succ_r'. lia.
Qed.

Lemma fixed6_parts (k : Z) :
  0 <= k ->
  exists ip fp,
    Float.fixed6 k = ip ++ String "." fp /\
    forall_chars is_digit ip = true /\ ip <> "" /\
    forall_chars is_digit fp = true /\ String.length fp = 6%nat /\
    Decimal.value (ip ++ fp) = Z.to_N k.
Proof.
  intros Hk. exists (Decimal.str_N (Z.to_N (k / 1000000))),
    (Decimal.zfill 6 (Decimal.str_N (Z.to_N (k mod 1000000)))).
  pose proof (Z.mod_pos_bound k 1000000 ltac:(lia)) as Hm.
  assert (Hlen : String.length (Decimal.zfill 6 (Decimal.str_N (Z.to_N (k mod 1000000)))) = 6%nat).
  { apply zfill_length, (str_N_length _ 5). change (10 ^ N.of_nat 6)%N with 1000000%N. lia. }
  split; [reflexivity |]. split; [apply str_N_digits |]. split; [apply str_N_nonempty |].
  split; [apply zfill_digits, str_N_digits |]. split; [exact Hlen |].
  unfold Decimal.value. rewrite value_go_app, value_go_shift, Hlen.
  fold (Decimal.value (Decimal.str_N (Z.to_N (k / 1000000)))).
  fold (Decimal.value (Decimal.zfill 6 (Decimal.str_N (Z.to_N (k mod 1000000))))).
  rewrite zfill_value, !str_N_value. change (10 ^ N.of_nat 6)%N with 1000000%N.
  pose proof (Z.div_mod k 1000000 ltac:(lia)) as E.
  assert (0 <= k / 1000000) by (apply Z.div_pos; lia). lia.
Qed.

Lemma parse_fixed6 (s : bool) (k : Z) :
  0 <= k ->
  Float.parse_number (Float.sign_str s ++ Float.fixed6 k) =
  Some (Float.of_decimal s (Z.to_N k) (-6)).
Proof.
  intros Hk. destruct (fixed6_parts k Hk) as (ip & fp & -> & Hip & Hne & Hfp & Hlen & Hval).
  assert (Hsign : Float.take_sign (Float.sign_str s ++ ip ++ String "." fp) =
                  (s, ip ++ String "." fp)).
  { destruct s; [reflexivity |]. change (Float.sign_str false ++ ?x) with x.
    destruct ip as [| a ip]; [congruence |].
    cbn [forall_chars] in Hip. apply andb_true_iff in Hip as [Ha _].
    change (String a ip ++ String "." fp) with (String a (ip ++ String "." fp)).
    now apply take_sign_digit. }
  unfold Float.parse_number. rewrite Hsign, (span_digits_app ip (String "." fp) Hip eq_refl).
  rewrite (span_digits_all fp Hfp), Hlen.
  assert (Hz : (String.length ip + 6 =? 0)%nat = false) by (apply Nat.eqb_neq; lia).
  rewrite Hz. cbn [Float.take_exponent]. now rewrite Hval.
Qed.

Lemma fixed6_numeric (s : bool) (k : Z) :
  forall_chars numeric (Float.sign_str s ++ Float.fixed6 k) = true.
Proof.
  rewrite forall_chars_app. apply andb_true_iff. split; [now destruct s |].
  unfold Float.fixed6. rewrite !forall_chars_app.
  rewrite (forall_chars_impl is_digit numeric _ digit_numeric (str_N_digits _)).
  rewrite (forall_chars_impl is_digit numeric _ digit_numeric
             (zfill_digits 6 _ (str_N_digits _))).
  reflexivity.
Qed.

Lemma of_string_fixed6 (s : bool) (k : Z) :
  0 <= k ->
  Float.of_string (Float.sign_str s ++ Float.fixed6 k) =
  Some (Float.of_decimal s (Z.to_N k) (-6)).
Proof.
  intros Hk. pose proof (fixed6_numeric s k) as Hn. unfold Float.of_string.
  rewrite strip_none by (eapply forall_chars_impl; [apply numeric_not_space | exact Hn]).
  assert (Hu : forall_chars (fun a => negb (Ascii.eqb a "_"))
                 (Float.sign_str s ++ Float.fixed6 k) = true)
    by (eapply forall_chars_impl; [apply numeric_not_underscore | exact Hn]).
  rewrite (underscores_ok_none None _ Hu I), (filter_chars_none _ _ Hu).
  now rewrite (parse_fixed6 s k Hk).
Qed.

Lemma round_half_even_nonneg (a : Z) (b : positive) : 0 <= a -> 0 <= Float.round_half_even a b.
Proof.
  intros Ha. etransitivity; [| apply round_half_even_ge]. apply Z.div_pos; lia.
Qed.

Lemma micros_nonneg (m : positive) (e : Z) : 0 <= Float.micros m e.
Proof.
  unfold Float.micros. destruct e as [| p | p].
  - lia.
  - pose proof (pow2_pos (Zpos p) ltac:(lia)). nia.
  - apply round_half_even_nonneg. lia.
Qed.

Lemma of_string_format_6f (x : Float.float) :
  Float.of_string (Float.format_6f x) = Some (reread x).
Proof.
  destruct x as [s | s | | s m e]; unfold Float.format_6f, reread.
  - now rewrite of_string_fixed6.
  - now destruct s.
  - reflexivity.
  - apply of_string_fixed6, micros_nonneg.
Qed.

(** X8 (lines 75 and 85): the text written for a timestamp is one that [float]
    reads, whatever the float was, so that no row of the CSV file holds a
    timestamp a reader would reject.  A [nan], an infinity and a zero are
    read back as they were, sign included; any other float is read back as
    the float nearest to the millionths that were written, with its sign. *)
Theorem timestamp_text_reads_back (x : Float.float) :
  Float.of_string (Float.format_6f x) = Some (reread x) /\
  (Float.is_finite x = false -> Float.of_string (Float.format_6f x) = Some x) /\
  (forall s, x = S754_zero s -> Float.of_string (Float.format_6f x) = Some x) /\
  (forall s m e, x = S754_finite s m e ->
     Float.of_string (Float.format_6f x) =
     Some (Float.of_decimal s (Z.to_N (Float.micros m e)) (-6))).
Proof.
  pose proof (of_string_format_6f x) as H.
  split; [exact H |]. split; [| split].
  - rewrite H. now destruct x.
  - intros s ->. exact H.
  - intros s m e ->. exact H.
Qed.

End ReadBack.

(** ** Bounds that survive the writing and the reading *)

Section ReadBackBounds.
Local Open Scope Z_scope.

(** the quotient the division hands to the rounding *)
Lemma div_core_spec (n d : positive) :
  exists q e l,
    SFdiv_core_binary Float.prec Float.emax (Zpos n) 0 (Zpos d) 0 = (q, e, l) /\
    -1074 <= e <= 0 /\ q = Zpos n * 2 ^ (- e) / Zpos d.
Proof.
  unfold SFdiv_core_binary.
  set (e' := Z.min _ _).
  assert (He' : -1074 <= e' <= 0).
  { unfold e'. pose proof (fexp_ge (Zdigits2 (Zpos n) + 0 - (Zdigits2 (Zpos d) + 0))). lia. }
  set (m' := match 0 - 0 - e' with Zpos _ => _ | Z0 => _ | Zneg _ => _ end).
  assert (Hm' : m' = Zpos n * 2 ^ (- e')).
  { unfold m'. destruct (0 - 0 - e') as [| k | k] eqn:E; try lia.
    - replace (- e') with 0 by lia. change (2 ^ 0) with 1. lia.
    - rewrite Z.shiftl_mul_pow2 by lia. do 2 f_equal. lia. }
  assert (Hq : fst (Z.div_eucl m' (Zpos d)) = Zpos n * 2 ^ (- e') / Zpos d)
    by (now rewrite <- Hm').
  destruct (Z.div_eucl m' (Zpos d)) as [q r]. eexists _, _, _. split; [reflexivity |].
  split; [exact He' | exact Hq].
Qed.

Lemma round_ratio_keeps_1000 (n d : positive) :
  1000 * Zpos d <= Zpos n -> above_1000 (Float.round_ratio false n d).
Proof.
  intros H. unfold Float.round_ratio.
  destruct (div_core_spec n d) as (q & e & l & -> & He & Hq).
  assert (HP : 0 < 2 ^ (- e)) by (apply pow2_pos; lia).
  assert (Hge : 1000 * 2 ^ (- e) <= q).
  { rewrite Hq. apply Z.div_le_lower_bound; [lia |]. nia. }
  apply round_aux_keeps_1000; [lia | lia |].
  replace 1074 with (- e + (e + 1074)) at 1 by lia. rewrite pow2_split by lia.
  rewrite Z.mul_assoc. apply Z.mul_le_mono_nonneg_r; [| exact Hge].
  apply Z.lt_le_incl, pow2_pos. lia.
Qed.

(** reading the written text back keeps a timestamp of 1000 or more at
    1000 or more *)
Lemma reread_above_1000 (x : Float.float) : above_1000 x -> above_1000 (reread x).
Proof.
  intros [-> | (m & e & -> & He & H)]; [now left |].
  destruct (render_above_1000 m e) as [_ Hk]; [right; eauto |].
  unfold reread, Float.of_decimal.
  destruct (Float.micros m e) as [| k | k] eqn:Ek; try lia.
  change (Z.to_N (Zpos k)) with (Npos k). cbv iota beta.
  apply round_ratio_keeps_1000. change (Zpos (10 ^ 6)) with 1000000. lia.
Qed.

Lemma float_ge_1000 (t : Float.float) : above_1000 t -> float_ge t f1000 = true.
Proof.
  intros H. apply above_1000_at_least in H. destruct t as [s | s | | s m e]; cbn in H.
  - unfold Qle in H. cbn in H. lia.
  - now subst s.
  - destruct H.
  - destruct H as [-> H]. unfold float_ge, f1000. apply Qle_bool_iff.
    eapply Qle_trans; [| exact H]. unfold Qle. cbn. lia.
Qed.


(** truncation does not raise a value *)
Lemma trunc_le (m e : Z) (l : location) :
  0 <= m ->
  shr_m (fst (shr_fexp Float.prec Float.emax m e l)) *
    2 ^ (snd (shr_fexp Float.prec Float.emax m e l) + 1074) <= m * 2 ^ (e + 1074) \/
  e < -1074.
Proof.
  intros Hm. destruct (Z_lt_le_dec e (-1074)) as [| He]; [now right | left].
  destruct (shr_fexp_spec m e l Hm) as [-> ->].
  set (e' := Z.max e (fexp (Zdigits2 m + e))).
  assert (Hee : e <= e') by (unfold e'; lia).
  assert (HN : 0 < 2 ^ (e' - e)) by (apply pow2_pos; lia).
  assert (HA : 0 < 2 ^ (e + 1074)) by (apply pow2_pos; lia).
  replace (e' + 1074) with ((e' - e) + (e + 1074)) by lia.
  rewrite pow2_split, Z.mul_assoc by lia.
  apply Z.mul_le_mono_nonneg_r; [lia |]. rewrite Z.mul_comm. now apply Z.mul_div_le.
Qed.

(** a value below a power of two rounds to that power at most *)
Lemma round_aux_below (m e B : Z) (l : location) :
  0 <= m -> -1074 <= e <= B -> B <= 95 -> m * 2 ^ (e + 1074) < 2 ^ (B + 1074) ->
  at_most_pow2 B (binary_round_aux Float.prec Float.emax false m e l).
Proof.
  intros Hm He HB H. unfold binary_round_aux.
  pose proof (trunc_below m e B l Hm He H) as (He1 & Hm1 & Hv1).
  destruct (shr_fexp Float.prec Float.emax m e l) as [mrs' e'] eqn:E1. cbn [fst snd] in *.
  set (mr := round_nearest_even (shr_m mrs') (loc_of_shr_record mrs')).
  pose proof (round_nearest_even_ge (shr_m mrs') (loc_of_shr_record mrs')) as Hge.
  pose proof (round_nearest_even_le (shr_m mrs') (loc_of_shr_record mrs')) as Hle.
  fold mr in Hge, Hle.
  assert (HA : 0 < 2 ^ (e' + 1074)) by (apply pow2_pos; lia).
  assert (E : 2 ^ (B + 1074) = 2 ^ (B - e') * 2 ^ (e' + 1074)).
  { rewrite <- pow2_split by lia. f_equal. lia. }
  assert (Hv : mr * 2 ^ (e' + 1074) <= 2 ^ (B + 1074)).
  { rewrite E in Hv1 |- *. apply Z.mul_lt_mono_pos_r in Hv1; [| exact HA].
    apply Z.mul_le_mono_nonneg_r; lia. }
  assert (Hv' : mr * 2 ^ (e' + 1074) < 2 ^ (B + 1 + 1074)).
  { replace (B + 1 + 1074) with (1 + (B + 1074)) by lia.
    rewrite (pow2_split 1 (B + 1074)) by lia. change (2 ^ 1) with 2.
    pose proof (pow2_pos (B + 1074) ltac:(lia)). lia. }
  pose proof (trunc_below mr e' (B + 1) loc_Exact ltac:(lia) ltac:(lia) Hv') as (He2 & Hm2 & _).
  destruct (trunc_le mr e' loc_Exact ltac:(lia)) as [Hv2 | ?]; [| lia].
  destruct (shr_fexp Float.prec Float.emax mr e' loc_Exact) as [mrs'' e''] eqn:E2.
  cbn [fst snd] in *.
  destruct (shr_m mrs'') as [| p | p]; [now left | | lia].
  destruct (Z.leb_spec e'' (Float.emax - Float.prec)) as [| Hgt].
  - right. exists p, e''. split; [reflexivity |]. split; lia.
  - unfold Float.emax, Float.prec in Hgt. lia.
Qed.

Lemma round_ratio_below (n d : positive) (B : Z) :
  0 <= B <= 95 -> Zpos n < 2 ^ B * Zpos d -> at_most_pow2 B (Float.round_ratio false n d).
Proof.
  intros HB H. unfold Float.round_ratio.
  destruct (div_core_spec n d) as (q & e & l & -> & He & Hq).
  assert (HP : 0 < 2 ^ (- e)) by (apply pow2_pos; lia).
  assert (HQ : 0 < 2 ^ B) by (apply pow2_pos; lia).
  assert (Hq0 : 0 <= q) by (rewrite Hq; apply Z.div_pos; nia).
  assert (Hlt : q < 2 ^ B * 2 ^ (- e)).
  { rewrite Hq. apply Z.div_lt_upper_bound; [lia |]. nia. }
  apply round_aux_below; [exact Hq0 | lia | lia |].
  replace (B + 1074) with (B + (- e + (e + 1074))) by lia.
  rewrite (pow2_split B), (pow2_split (- e)), Z.mul_assoc by lia.
  apply Z.mul_lt_mono_pos_r; [apply pow2_pos; lia | exact Hlt].
Qed.

Lemma round_half_even_le (a : Z) (b : positive) (K : Z) :
  a <= K * Zpos b -> Float.round_half_even a b <= K.
Proof.
  intros H. unfold Float.round_half_even.
  pose proof (Z.div_mod a (Zpos b) ltac:(lia)) as E.
  pose proof (Z.mod_pos_bound a (Zpos b) ltac:(lia)) as Hr.
  assert (Hq : a / Zpos b <= K) by nia.
  destruct (Z.compare_spec (2 * (a mod Zpos b)) (Zpos b)) as [Hc | Hc | Hc].
  - assert (a / Zpos b < K) by nia. destruct (Z.even _); lia.
  - exact Hq.
  - assert (a / Zpos b < K) by nia. lia.
Qed.

(** the millionths written for a float of [2^B] at most *)
Lemma micros_below (m : positive) (e B : Z) :
  -1074 <= e -> 0 <= B -> Zpos m * 2 ^ (e + 1074) <= 2 ^ (B + 1074) ->
  Float.micros m e <= 2 ^ B * 1000000.
Proof.
  intros He HB H. rewrite (pow2_split B 1074) in H by lia.
  pose proof (pow2_pos 1074 ltac:(lia)) as HK. pose proof (pow2_pos B HB) as HQ.
  unfold Float.micros. destruct e as [| p | p].
  - change (0 + 1074) with 1074 in H. change (2 ^ 0) with 1.
    apply Z.mul_le_mono_pos_r in H; [| exact HK]. lia.
  - rewrite (pow2_split (Zpos p) 1074), Z.mul_assoc in H by lia.
    apply Z.mul_le_mono_pos_r in H; [| exact HK]. lia.
  - apply round_half_even_le. rewrite Pos2Z.inj_pow.
    assert (E : 2 ^ 1074 = 2 ^ Zpos p * 2 ^ (Zneg p + 1074)).
    { rewrite <- pow2_split by lia. f_equal. lia. }
    rewrite E, (Z.mul_assoc (2 ^ B)) in H.
    apply Z.mul_le_mono_pos_r in H; [| apply pow2_pos; lia]. lia.
Qed.

(** reading the written text back keeps a timestamp of [2^B] at most
    below [2^(B+1)] *)
Lemma reread_below (x : Float.float) (B : Z) :
  0 <= B <= 94 -> at_most_pow2 B x -> at_most_pow2 (B + 1) (reread x).
Proof.
  intros HB [-> | (m & e & -> & He & H)]; [now left |].
  pose proof (micros_below m e B He ltac:(lia) H) as Hk.
  pose proof (micros_nonneg m e) as Hk0.
  unfold reread, Float.of_decimal.
  destruct (Float.micros m e) as [| k | k] eqn:Ek; [now left | | lia].
  change (Z.to_N (Zpos k)) with (Npos k). cbv iota beta.
  apply round_ratio_below; [lia |]. change (Zpos (10 ^ 6)) with 1000000.
  rewrite (pow2_split B 1) by lia. change (2 ^ 1) with 2.
  pose proof (pow2_pos B ltac:(lia)). lia.
Qed.

Lemma at_most_to_Q (B : Z) (m : positive) (e : Z) :
  0 <= B -> -1074 <= e -> Zpos m * 2 ^ (e + 1074) <= 2 ^ (B + 1074) ->
  (0 <= Float.to_Q (S754_finite false m e) <= inject_Z (2 ^ B))%Q.
Proof.
  intros HB He H. rewrite (pow2_split B 1074) in H by lia.
  pose proof (pow2_pos 1074 ltac:(lia)) as HK. pose proof (pow2_pos B HB) as HQ.
  unfold Float.to_Q, Qle. destruct e as [| p | p]; cbn [Qnum Qden inject_Z].
  - change (0 + 1074) with 1074 in H. change (2 ^ 0) with 1.
    apply Z.mul_le_mono_pos_r in H; [| exact HK]. lia.
  - rewrite (pow2_split (Zpos p) 1074), Z.mul_assoc in H by lia.
    apply Z.mul_le_mono_pos_r in H; [| exact HK].
    pose proof (pow2_pos (Zpos p) ltac:(lia)). nia.
  - rewrite Pos2Z.inj_pow.
    assert (E : 2 ^ 1074 = 2 ^ Zpos p * 2 ^ (Zneg p + 1074)).
    { rewrite <- pow2_split by lia. f_equal. lia. }
    rewrite E, (Z.mul_assoc (2 ^ B)) in H.
    apply Z.mul_le_mono_pos_r in H; [| apply pow2_pos; lia]. lia.
Qed.

Lemma float_lt_100 (t : Float.float) : at_most_pow2 6 t -> float_lt t f100 = true.
Proof.
  intros [-> | (m & e & -> & He & H)]; [reflexivity |].
  destruct (at_most_to_Q 6 m e ltac:(lia) He H) as [_ Hle].
  unfold float_lt, f100. apply negb_true_iff.
  destruct (Qle_bool _ _) eqn:E; [| reflexivity]. apply Qle_bool_iff in E.
  pose proof (Qle_trans _ _ _ E Hle) as Hc. unfold Qle in Hc. cbn in Hc. lia.
Qed.

Lemma float_ge_zero (t : Float.float) (B : Z) :
  0 <= B -> at_most_pow2 B t -> float_ge t (S754_zero false) = true.
Proof.
  intros HB [-> | (m & e & -> & He & H)]; [reflexivity |].
  destruct (at_most_to_Q B m e HB He H) as [Hge _].
  unfold float_ge. now apply Qle_bool_iff.
Qed.

Lemma of_fraction_below (q : Q) (x : Float.float) (B : Z) :
  0 <= B <= 95 -> 0 <= Qnum q < 2 ^ B * Zpos (Qden q) ->
  Float.of_fraction q = Some x -> at_most_pow2 B x.
Proof.
  unfold Float.of_fraction, Float.true_divide. intros HB Hq.
  destruct (Qnum q) as [| p | p]; [| | lia].
  - intros [= <-]. now left.
  - pose proof (round_ratio_below p (Qden q) B HB ltac:(lia)) as Hr.
    destruct (Float.round_ratio false p (Qden q)); intros [= <-]; exact Hr.
Qed.

Lemma fraction_mul_below (p : Z) (tb : Q) (K : Z) :
  0 <= K -> p * Qnum tb < K * Zpos (Qden tb) ->
  Qnum (Float.fraction_mul p tb) < K * Zpos (Qden (Float.fraction_mul p tb)).
Proof.
  intros HK H. unfold Float.fraction_mul.
  pose proof (Qred_correct (inject_Z p * tb)) as E. unfold Qeq in E.
  cbn [Qnum Qden Qmult inject_Z] in E.
  set (a := Qnum (Qred (inject_Z p * tb))) in *.
  set (b := Zpos (Qden (Qred (inject_Z p * tb)))) in *.
  assert (0 < b) by (unfold b; lia).
  rewrite Pos.mul_1_l in E.
  remember (Zpos (Qden tb)) as d. assert (0 < d) by lia.
  remember (p * Qnum tb) as k. clear - E H H0 H1 HK. nia.
Qed.

Lemma add_zero_id (x : Float.float) (B : Z) :
  at_most_pow2 B x -> Float.add x (S754_zero false) = x.
Proof. now intros [-> | (m & e & -> & _)]. Qed.

End ReadBackBounds.

(** ** The tests of the repository *)

Section TestRuns.
Import Text.
Variable float_repr : Float.float -> string.

Lemma universal_newlines_inline (a : ascii) (r : string) :
  Csv.inline a = true -> universal_newlines (String a r) = String a (universal_newlines r).
Proof. destruct a as [[] [] [] [] [] [] [] []]; intros H; try discriminate H; reflexivity. Qed.

Lemma readlines_go_line (cur s rest : string) :
  forall_chars Csv.inline s = true ->
  readlines_go cur (universal_newlines (s ++ Csv.lineterminator ++ rest)) =
  (cur ++ s ++ String Csv.lf "") :: readlines_go "" (universal_newlines rest).
Proof.
  revert cur. induction s as [| a s IH]; intros cur Hs.
  - reflexivity.
  - cbn [forall_chars] in Hs. apply andb_true_iff in Hs as [Ha Hs].
    destruct (inline_not_newline a Ha) as [Hlf _].
    change (String a s ++ Csv.lineterminator ++ rest)
      with (String a (s ++ Csv.lineterminator ++ rest)).
    rewrite (universal_newlines_inline a _ Ha). cbn [readlines_go].
    rewrite Hlf, IH by exact Hs. now rewrite append_assoc.
Qed.

Lemma readlines_rows (ss : list shot) :
  readlines_go "" (universal_newlines (fold_right String.append "" (map csv_row ss))) =
  map (fun s => (frame_filename (index s) ++ "," ++ Float.format_6f (stamp s)) ++
                String Csv.lf "") ss.
Proof.
  induction ss as [| s ss IH]; [reflexivity |].
  cbn [map fold_right]. rewrite csv_row_plain, append_assoc, readlines_go_line.
  - now rewrite IH.
  - rewrite !forall_chars_app.
    rewrite (forall_chars_impl _ _ _ plain_inline (frame_filename_plain (index s))).
    now rewrite (forall_chars_impl _ _ _ plain_inline (format_6f_plain (stamp s))).
Qed.

(** the lines a reader of the CSV file gets: the header, then one line
    per written frame, each ended by a line feed *)
Lemma readlines_csv_text (ss : list shot) :
  readlines (universal_newlines (csv_text ss)) =
  String.append "filename,timestamp" (String Csv.lf "")
  :: map (fun s => (frame_filename (index s) ++ "," ++ Float.format_6f (stamp s)) ++
                   String Csv.lf "") ss.
Proof.
  unfold readlines, csv_text.
  change csv_header with ("filename,timestamp" ++ Csv.lineterminator).
  rewrite append_assoc, readlines_go_line by reflexivity.
  now rewrite readlines_rows.
Qed.

Lemma digit_not_space (a : ascii) : is_digit a = true -> negb (is_space a) = true.
Proof. intros H. now apply numeric_not_space, digit_numeric. Qed.

Lemma frame_filename_no_space (i : nat) :
  forall_chars (fun a => negb (is_space a)) (frame_filename i) = true.
Proof.
  unfold frame_filename. rewrite !forall_chars_app.
  now rewrite (forall_chars_impl _ _ _ digit_not_space (format_06d_digits i)).
Qed.

Lemma format_6f_no_space (x : Float.float) :
  forall_chars (fun a => negb (is_space a)) (Float.format_6f x) = true.
Proof.
  unfold Float.format_6f.
  destruct x as [s | s | | s m e];
    try (apply (forall_chars_impl numeric); [apply numeric_not_space | apply fixed6_numeric]).
  - now destruct s.
  - reflexivity.
Qed.

(** the fields the tests find in the line of a written frame *)
Lemma row_fields_row (i : nat) (x : Float.float) :
  row_fields ((frame_filename i ++ "," ++ Float.format_6f x) ++ String Csv.lf "") =
  [frame_filename i; Float.format_6f x].
Proof.
  unfold row_fields. rewrite strip_line.
  - apply split_two.
    + apply (contains_forall "," Csv.plain); [reflexivity | apply frame_filename_plain].
    + apply (contains_forall "," Csv.plain); [reflexivity | apply format_6f_plain].
  - rewrite !forall_chars_app, frame_filename_no_space, format_6f_no_space. reflexivity.
Qed.

Lemma run_assert_frames (out : string) (indices : list nat) (rest : prog bool) (w : world) :
  (forall i, In i indices -> is_Some (fs w !! frame_path out i)) ->
  run (assert_frames out indices rest) w = run rest w.
Proof.
  induction indices as [| i indices IH]; intros H; [reflexivity |].
  cbn [assert_frames]. rewrite run_bind, run_path_exists. fold (frame_path out i).
  rewrite bool_decide_eq_true_2 by (apply H; now left). cbn [assert_that].
  apply IH. intros j Hj. apply H. now right.
Qed.

Lemma run_read_csv (p t : string) (w : world) :
  fs w !! p = Some (File (Text t)) -> unreadable w = ∅ ->
  run (read_text p) w = (inr (universal_newlines t), w).
Proof.
  intros Hp Hu. rewrite run_read_text. cbn [exec fst]. rewrite Hp, Hu.
  now rewrite bool_decide_eq_false_2 by set_solver.
Qed.

(** what a run that goes through leaves for the tests to look at *)
Lemma after_run (w : world) (v out : string) (c : container) (s : stream)
    (more : list stream) (off : Float.float) :
  av_open w v = inr c -> video c = s :: more ->
  start_offset (ensure_dir out w) v = inr off ->
  int32_ratio (time_base s) ->
  Forall (fun f => exists p, pts f = Some p /\ int64 p /\ 0 <= p * Qnum (time_base s))
    (frames s) ->
  exists w',
    run (extract_frames float_repr v out) w = (inr tt, w') /\
    unreadable w' = unreadable w /\
    is_Some (fs w' !! out) /\
    fs w' !! csv_path out =
      Some (File (Text (csv_text (written (time_base s) off 0 (frames s))))) /\
    (forall i, (i < length (frames s))%nat -> is_Some (fs w' !! frame_path out i)) /\
    map index (written (time_base s) off 0 (frames s)) = seq 0 (length (frames s)).
Proof.
  intros Hopen Hvideo Hoff Htb Hall.
  assert (Hsome : Forall (fun f => pts f <> None) (frames s)).
  { eapply Forall_impl; [exact Hall |]. intros f (p & -> & _). discriminate. }
  assert (Hpts : Forall (fun f => forall p, pts f = Some p -> int64 p) (frames s)).
  { eapply Forall_impl; [exact Hall |]. intros f (p & -> & Hp & _) q [= <-]. exact Hp. }
  pose proof (no_overflow _ _ Htb Hpts) as Hov.
  destruct (written_all (time_base s) off (frames s) 0 Hsome Hov) as [Hidx _].
  pose proof (result_success float_repr w v out c s more off Hopen Hvideo Hoff) as Hres.
  pose proof (fs_success float_repr w v out c s more off Hopen Hvideo Hoff) as Hfs.
  pose proof (world_extract_frames float_repr v out w) as Hw.
  rewrite Hov in Hres.
  destruct (run (extract_frames float_repr v out) w) as [r w'] eqn:E. cbn [fst snd] in *.
  subst r. exists w'. split; [reflexivity |].
  set (ss := written (time_base s) off 0 (frames s)) in *.
  assert (Hframe : forall i, (i < length (frames s))%nat ->
            is_Some (save_all out ss (fs (ensure_dir out w)) !! frame_path out i)).
  { intros i Hi.
    assert (Hin : In i (map index ss)) by (rewrite Hidx; apply in_seq; lia).
    apply in_map_iff in Hin as (sh & <- & Hsh).
    rewrite (lookup_save_all_in out ss sh); [eauto | | exact Hsh].
    apply written_index_NoDup. }
  split; [| split; [| split; [| split]]].
  - rewrite Hw. apply unreadable_replay.
  - rewrite Hfs, lookup_insert_ne by apply csv_path_not_dir.
    rewrite lookup_save_all_other by (intros sh _; apply frame_path_not_dir).
    unfold ensure_dir. destruct (bool_decide (is_Some (fs w !! out))) eqn:Ed.
    + now apply bool_decide_eq_true_1 in Ed.
    + cbn. rewrite lookup_insert_eq. eauto.
  - rewrite Hfs. apply lookup_insert_eq.
  - intros i Hi. rewrite Hfs, lookup_insert_ne by (apply not_eq_sym, frame_path_not_csv).
    now apply Hframe.
  - exact Hidx.
Qed.


(** the first written frame of a stream whose frames all carry a timestamp *)
Lemma written_first (tb : Q) (off : Float.float) (fr : list frame) (n : nat) :
  map index (written tb off 0 fr) = seq 0 (S n) ->
  Forall (fun f => exists p, pts f = Some p /\ int64 p /\ 0 <= p * Qnum tb) fr ->
  exists sh rest f more p x,
    written tb off 0 fr = sh :: rest /\ length rest = n /\ index sh = 0%nat /\
    fr = f :: more /\ pts f = Some p /\ 0 <= p * Qnum tb /\
    Float.of_fraction (Float.fraction_mul p tb) = Some x /\ nonneg_float x /\
    stamp sh = Float.add x off.
Proof.
  intros Hidx Hall.
  destruct fr as [| f more]; [discriminate |].
  apply Forall_cons in Hall as [(p & Hp & _ & Hnn) _].
  cbn [written] in *. rewrite Hp in *. unfold timestamp_seconds in *.
  destruct (Float.of_fraction (Float.fraction_mul p tb)) as [x |] eqn:Ex; [| discriminate].
  cbn [map seq index] in Hidx. injection Hidx as Hrest.
  eexists _, _, f, more, p, x. split; [reflexivity |].
  split; [rewrite <- (length_map index), Hrest; apply length_seq |].
  split; [reflexivity |]. split; [reflexivity |]. split; [exact Hp |]. split; [exact Hnn |].
  split; [exact Ex |]. split; [| reflexivity].
  apply (of_fraction_nonneg _ _ (fraction_mul_nonneg p tb Hnn) Ex).
Qed.

(** X9 (tests, lines 41-77): [test_extract_frames] passes on every video that
    the backend decodes into five frames with timestamps that are not
    negative (64-bit integers on a time base of 32-bit integers), when the
    directory of the test has no trailing slash, the test may read the
    files it writes, and [str(1000.0)] is [1000.0]. *)
Theorem test_extract_frames_passes (w : world) (temp_dir : string) (c : container)
    (s : stream) (more : list stream) :
  endswith slash temp_dir = false ->
  float_repr f1000 = "1000.0" ->
  unreadable w = ∅ ->
  av_open w (Path.join temp_dir "test_video.mov") = inr c ->
  video c = s :: more ->
  length (frames s) = 5%nat ->
  int32_ratio (time_base s) ->
  Forall (fun f => exists p, pts f = Some p /\ int64 p /\ 0 <= p * Qnum (time_base s))
    (frames s) ->
  fst (run (test_extract_frames float_repr temp_dir) w) = inr true.
Proof.
  intros Hdir Hrepr Hread Hopen Hvideo Hlen Htb Hall.
  unfold test_extract_frames.
  set (v := Path.join temp_dir "test_video.mov") in *.
  set (out := Path.join temp_dir "output").
  set (side := Path.join temp_dir "video_start_time.txt").
  rewrite run_bind, run_open_write, run_bind.
  change (run (call (FileWrite side (float_repr f1000))) ?W)
    with (inr tt : exn + unit, snd (exec (FileWrite side (float_repr f1000)) W)).
  cbv iota beta. rewrite Hrepr.
  set (w1 := snd (exec (FileWrite side "1000.0") (snd (exec (OpenWrite side) w)))).
  assert (Hside : fs w1 !! side = Some (File (Text "1000.0"))).
  { unfold w1. cbn. rewrite lookup_insert_eq. apply lookup_insert_eq. }
  assert (Hsp : sidecar_path v = side).
  { unfold sidecar_path, v. now rewrite dirname_join. }
  assert (Hne : side <> out).
  { intros E. apply join_inj in E; [discriminate | reflexivity | reflexivity]. }
  assert (Hoff : start_offset (ensure_dir out w1) v = inr f1000).
  { unfold start_offset. rewrite Hsp, (lookup_ensure_dir out side w1 Hne), Hside.
    cbn [exec fst]. rewrite (lookup_ensure_dir out side w1 Hne), Hside.
    assert (Hu : unreadable (ensure_dir out w1) = ∅).
    { unfold ensure_dir. destruct (bool_decide _); exact Hread. }
    rewrite Hu, bool_decide_eq_false_2 by set_solver.
    change (Float.of_string (Text.strip (universal_newlines "1000.0")))
      with (Float.of_string "1000.0").
    now replace (Float.of_string "1000.0") with (Some f1000) by (vm_compute; reflexivity). }
  destruct (after_run w1 v out c s more f1000 Hopen Hvideo Hoff Htb Hall)
    as (w2 & Hrun & Hu2 & Hout & Hcsv & Hframes & Hidx).
  rewrite run_bind, Hrun, run_bind, run_path_exists.
  rewrite bool_decide_eq_true_2 by exact Hout. cbn [assert_that].
  fold (csv_path out).
  rewrite run_bind, run_path_exists, bool_decide_eq_true_2 by (rewrite Hcsv; eauto).
  cbn [assert_that].
  rewrite run_assert_frames
    by (intros i Hi; apply Hframes; apply in_seq in Hi; rewrite Hlen; lia).
  rewrite run_bind, (run_read_csv _ _ _ Hcsv) by (now rewrite Hu2).
  rewrite readlines_csv_text. rewrite Hlen in Hidx.
  destruct (written_first _ _ _ _ Hidx Hall)
    as (sh & rest & f & fr & p & x & -> & Hrest & Hi0 & _ & _ & _ & _ & Hx & Hst).
  cbn [map length]. rewrite length_map, Hrest. cbn [Nat.eqb assert_that].
  replace (row_fields ("filename,timestamp" ++ String Csv.lf ""))
    with ["filename"; "timestamp"] by (vm_compute; reflexivity).
  rewrite bool_decide_eq_true_2 by reflexivity. cbn [assert_that].
  rewrite row_fields_row, Hi0.
  replace (frame_filename 0) with "frame_000000.jpg" by (vm_compute; reflexivity).
  rewrite String.eqb_refl. cbn [assert_that].
  unfold float_of_string. rewrite of_string_format_6f. cbn [bind].
  rewrite float_ge_1000; [reflexivity |].
  apply reread_above_1000. rewrite Hst. now apply add_1000.
Qed.


(** X10 (tests, lines 79-99): [test_extract_frames_no_start_time] passes on
    every video that the backend decodes into three frames with timestamps
    that are not negative, the first of them below 32 seconds, when the
    directory of the test has no trailing slash and no sidecar file, and
    the test may read the files it writes. *)
Theorem test_extract_frames_no_start_time_passes (w : world) (temp_dir : string)
    (c : container) (s : stream) (more : list stream) :
  endswith slash temp_dir = false ->
  unreadable w = ∅ ->
  fs w !! Path.join temp_dir "video_start_time.txt" = None ->
  av_open w (Path.join temp_dir "test_video_no_start.mov") = inr c ->
  video c = s :: more ->
  length (frames s) = 3%nat ->
  int32_ratio (time_base s) ->
  Forall (fun f => exists p, pts f = Some p /\ int64 p /\ 0 <= p * Qnum (time_base s))
    (frames s) ->
  (forall f p, frames s !! 0%nat = Some f -> pts f = Some p ->
     p * Qnum (time_base s) < 32 * Zpos (Qden (time_base s))) ->
  fst (run (test_extract_frames_no_start_time float_repr temp_dir) w) = inr true.
Proof.
  intros Hdir Hread Hnone Hopen Hvideo Hlen Htb Hall Hsmall.
  unfold test_extract_frames_no_start_time.
  set (v := Path.join temp_dir "test_video_no_start.mov") in *.
  set (out := Path.join temp_dir "output_no_start").
  set (side := Path.join temp_dir "video_start_time.txt") in *.
  assert (Hsp : sidecar_path v = side).
  { unfold sidecar_path, v. now rewrite dirname_join. }
  assert (Hne : side <> out).
  { intros E. apply join_inj in E; [discriminate | reflexivity | reflexivity]. }
  assert (Hoff : start_offset (ensure_dir out w) v = inr (S754_zero false)).
  { unfold start_offset. now rewrite Hsp, (lookup_ensure_dir out side w Hne), Hnone. }
  destruct (after_run w v out c s more _ Hopen Hvideo Hoff Htb Hall)
    as (w2 & Hrun & Hu2 & Hout & Hcsv & Hframes & Hidx).
  rewrite run_bind, Hrun, run_bind, run_path_exists.
  rewrite bool_decide_eq_true_2 by exact Hout. cbn [assert_that].
  fold (csv_path out).
  rewrite run_bind, (run_read_csv _ _ _ Hcsv) by (now rewrite Hu2).
  rewrite readlines_csv_text. rewrite Hlen in Hidx.
  destruct (written_first _ _ _ _ Hidx Hall)
    as (sh & rest & f & fr & p & x & -> & Hrest & Hi0 & Hfr & Hp & Hnn & Hx & _ & Hst).
  cbn [map length]. rewrite length_map, Hrest. cbn [Nat.eqb assert_that].
  rewrite row_fields_row.
  assert (Hlt : p * Qnum (time_base s) < 32 * Zpos (Qden (time_base s))).
  { apply (Hsmall f p); [now rewrite Hfr | exact Hp]. }
  assert (Hb : at_most_pow2 5 x).
  { apply (of_fraction_below _ _ 5 ltac:(lia)) in Hx; [exact Hx |]. split.
    - now apply fraction_mul_nonneg.
    - now apply (fraction_mul_below p (time_base s) 32). }
  rewrite (add_zero_id x 5 Hb) in Hst.
  pose proof (reread_below x 5 ltac:(lia) Hb) as Hr. change (5 + 1) with 6 in Hr.
  unfold float_of_string. rewrite of_string_format_6f, Hst. cbn [bind].
  rewrite (float_ge_zero _ 6 ltac:(lia) Hr). cbn [assert_that bind].
  now rewrite (float_lt_100 _ Hr).
Qed.

End TestRuns.

(** ** The order of the file names *)

Section NameOrder.
Import Text.

Lemma compare_app_prefix (p a b : string) :
  String.compare (p ++ a) (p ++ b) = String.compare a b.
Proof.
  induction p as [| c p IH]; [reflexivity |].
  change (String c p ++ ?x) with (String c (p ++ x)). cbn [String.compare].
  unfold Ascii.compare. now rewrite N.compare_refl.
Qed.

Lemma digit_code (a : ascii) : is_digit a = true -> (48 <= N_of_ascii a <= 57)%N.
Proof.
  unfold is_digit. intros [H1 H2]%andb_true_iff.
  apply N.leb_le in H1. apply N.leb_le in H2. lia.
Qed.

Lemma value_lt_pow (d : string) :
  forall_chars is_digit d = true ->
  (Decimal.value d < 10 ^ N.of_nat (String.length d))%N.
Proof.
  unfold Decimal.value. induction d as [| a d IH]; [reflexivity |].
  cbn [forall_chars]. intros [Ha Hd]%andb_true_iff. apply digit_code in Ha.
  specialize (IH Hd). cbn [Decimal.value_go String.length].
  rewrite value_go_shift, Nat2N.inj_succ, N.pow_succ_r'. nia.
Qed.

(** digit strings of one length compare as their values *)
Lemma compare_digits (d1 d2 s1 s2 : string) :
  String.length d1 = String.length d2 ->
  forall_chars is_digit d1 = true -> forall_chars is_digit d2 = true ->
  (Decimal.value d1 < Decimal.value d2)%N ->
  String.compare (d1 ++ s1) (d2 ++ s2) = Lt.
Proof.
  revert d2. induction d1 as [| a d1 IH]; intros [| b d2] Hlen H1 H2 Hv;
    try discriminate Hlen.
  - cbn in Hv. lia.
  - cbn [forall_chars] in H1, H2.
    apply andb_true_iff in H1 as [Ha H1]. apply andb_true_iff in H2 as [Hb H2].
    apply digit_code in Ha. apply digit_code in Hb.
    injection Hlen as Hlen.
    pose proof (value_lt_pow d1 H1) as B1. pose proof (value_lt_pow d2 H2) as B2.
    unfold Decimal.value in *. cbn [Decimal.value_go] in Hv.
    rewrite (value_go_shift _ d1), (value_go_shift _ d2), <- Hlen in Hv.
    rewrite <- Hlen in B2.
    change (String a d1 ++ s1) with (String a (d1 ++ s1)).
    change (String b d2 ++ s2) with (String b (d2 ++ s2)).
    cbn [String.compare]. unfold Ascii.compare.
    destruct (N.compare_spec (N_of_ascii a) (N_of_ascii b)) as [E | E | E].
    + apply IH; [exact Hlen | exact H1 | exact H2 |]. unfold Decimal.value.
      rewrite E in Hv. lia.
    + reflexivity.
    + exfalso. remember (10 ^ N.of_nat (String.length d1))%N as P. nia.
Qed.

(** X11 (line 78): thanks to the six digits of [:06d], the names of the
    frame files sort - as strings, character by character - in the order
    of their indices, as long as the indices stay below a million; the
    first index beyond breaks the order, its name sorting before that of
    the frame preceding it. *)
Theorem frame_files_sort_in_decode_order (i j : nat) :
  (i < j)%nat -> (N.of_nat j < 1000000)%N ->
  String.compare (frame_filename i) (frame_filename j) = Lt /\
  String.compare (frame_filename (N.to_nat 1000000)) (frame_filename (N.to_nat 999999)) = Lt.
Proof.
  intros Hij Hj. split; [| vm_compute; reflexivity].
  unfold frame_filename. rewrite compare_app_prefix.
  assert (Hlen : forall k, (N.of_nat k < 1000000)%N ->
            String.length (Decimal.format_06d k) = 6%nat).
  { intros k Hk. apply zfill_length, (str_N_length _ 5). exact Hk. }
  apply compare_digits.
  - rewrite !Hlen by lia. reflexivity.
  - apply format_06d_digits.
  - apply format_06d_digits.
  - rewrite !format_06d_value. lia.
Qed.

End NameOrder.

(** ** The theorems at sample inputs *)

Example dirname_nested : Path.dirname "/data/run1/video.mov" = "/data/run1".
Proof. reflexivity. Qed.

Example dirname_bare : Path.dirname "video.mov" = "".
Proof. reflexivity. Qed.

Example join_plain : Path.join "out" "frame_timestamps.csv" = "out/frame_timestamps.csv".
Proof. reflexivity. Qed.

Example of_string_1000 : Float.of_string " 1000.0 " = Some f1000.
Proof. vm_compute. reflexivity. Qed.

Example format_third : option_map Float.format_6f (Float.of_fraction (1 # 3)) = Some "0.333333".
Proof. vm_compute. reflexivity. Qed.

Example splitlines_sample :
  splitlines (csv_text [Shot 0 (S754_zero false) 7%N]) =
  ["filename,timestamp"; "frame_000000.jpg,0.000000"].
Proof. vm_compute. reflexivity. Qed.






Lemma C3_witness :
  let loop := decode_loop "out" (csv_path "out") (1 # 30) f1000 in
  let w := sample_world (sidecar_file "1000.0") (Container [gappy_stream]) in
  map fst (saved (trace (loop 0%nat (frames gappy_stream)) w)) =
  ["out/frame_000000.jpg"; "out/frame_000002.jpg"].
Proof.
  intros loop w.
  pose proof (C3_frame_without_timestamp_is_skipped "out" (1 # 30) f1000 0
                [Frame (Some 0) 10%N] [Frame (Some 2) 12%N] 11%N w) as H.
  specialize (H ltac:(vm_compute; reflexivity)).
  destruct H as (_ & H2 & _). unfold loop.
  change (frames gappy_stream)
    with ([Frame (Some 0) 10%N] ++ Frame None 11%N :: [Frame (Some 2) 12%N])%list.
  rewrite H2. vm_compute. reflexivity.
Defined.




(** a sidecar file the process may not read: the error escapes *)
Lemma C10_witness :
  let w := World (sidecar_file "1000.0") {[ "d/video_start_time.txt" ]}
             (sample_backend sample_video) [] in
  let r := run (extract_frames Float.format_6f "d/v.mov" "out") w in
  fst r = inl (Exn PermissionError "d/video_start_time.txt") /\
  fs (snd r) = fs (ensure_dir "out" w).
Proof.
  intros w r.
  pose proof (C10_only_value_errors_are_downgraded Float.format_6f w "d/v.mov" "out"
                sample_video sample_stream [] (Exn PermissionError "d/video_start_time.txt")
                eq_refl eq_refl) as H.
  specialize (H ltac:(vm_compute; eauto) ltac:(vm_compute; reflexivity)).
  cbn [is_ValueError kind] in H. destruct H as (H1 & H2 & _). split; [exact H1 | exact H2].
Defined.

(** a sidecar file whose bytes do not decode: the error is not a failed
    float parse, and the run goes on with the offset 0.0 *)
Lemma C10_counterexample :
  let w := sample_world {[ "d/video_start_time.txt" := File (Undecodable [255; 254; 49]%N) ]}
             sample_video in
  let r := run (extract_frames Float.format_6f "d/v.mov" "out") w in
  fst (exec (ReadText "d/video_start_time.txt") (ensure_dir "out" w)) =
    inl (Exn UnicodeDecodeError "d/video_start_time.txt") /\
  fst r = inr tt /\
  exists text,
    fs (snd r) !! csv_path "out" = Some (File (Text text)) /\
    splitlines text =
      ["filename,timestamp"; "frame_000000.jpg,0.000000"; "frame_000001.jpg,0.033333";
       "frame_000002.jpg,0.066667"].
Proof. vm_compute. repeat split. eexists. repeat split. Qed.




(** stopped after ten commands, the sample run has saved its first image
    and not yet appended its row *)
Example stopped_in_flight :
  let w := sample_world (sidecar_file "1000.0") sample_video in
  let cs := fst (run_for 10 (extract_frames Float.format_6f "d/v.mov" "out") w) in
  in_flight cs = true /\
  saved cs = [("out/frame_000000.jpg", 10%N)] /\
  tail (appended (csv_path "out") cs) = [].
Proof. vm_compute. repeat split. Qed.

(** ** The further properties on sample runs *)



Lemma sidecar_is_next_to_the_video_witness :
  sidecar_path (Path.join "rec/day1" "clip.mov") = "rec/day1/video_start_time.txt".
Proof.
  exact (proj1 (proj2 (sidecar_is_next_to_the_video "rec/day1" "clip.mov" eq_refl eq_refl))).
Defined.

Ltac stamped_frames :=
  repeat (constructor;
          [eexists; split; [reflexivity | split; [unfold int64; cbn; lia | cbn; lia]] |]);
  constructor.

Lemma test_extract_frames_passes_witness :
  fst (run (test_extract_frames sample_repr "/tmp/t") test_world) = inr true.
Proof.
  apply (test_extract_frames_passes sample_repr test_world "/tmp/t"
           (Container [dummy_stream 5]) (dummy_stream 5) []);
    try reflexivity.
  - unfold int32_ratio. cbn [Qnum Qden time_base dummy_stream]. lia.
  - unfold dummy_stream. cbn [frames map seq time_base Qnum]. stamped_frames.
Defined.

Lemma test_extract_frames_no_start_time_passes_witness :
  fst (run (test_extract_frames_no_start_time sample_repr "/tmp/t") test_world) = inr true.
Proof.
  apply (test_extract_frames_no_start_time_passes sample_repr test_world "/tmp/t"
           (Container [dummy_stream 3]) (dummy_stream 3) []);
    try reflexivity.
  - unfold int32_ratio. cbn [Qnum Qden time_base dummy_stream]. lia.
  - unfold dummy_stream. cbn [frames map seq time_base Qnum]. stamped_frames.
  - intros f p Hf Hp. cbn in Hf. injection Hf as <-. cbn in Hp. injection Hp as <-.
    cbn. lia.
Defined.


Lemma frame_files_sort_in_decode_order_witness :
  String.compare "frame_000009.jpg" "frame_000010.jpg" = Lt /\
  String.compare "frame_1000000.jpg" "frame_999999.jpg" = Lt.
Proof.
  exact (frame_files_sort_in_decode_order 9 10 ltac:(lia) ltac:(vm_compute; reflexivity)).
Defined.
